(** * corineFunctions.py: the CORINE land-cover visualizer and area tabulator

    A shallow embedding of [src/corineFunctions.py].  The two functions of the
    module are thin orchestration layers over three collaborators (the Earth
    Engine client [ee], the map widget of [geemap], the tables of [pandas]).

    - Earth Engine objects are lazy expression trees ([image]); the answers of
      the backend are the fields of a [backend] record.
    - Every call made on a collaborator is appended to a log ([calls]), every
      [print] to a console ([stdout]); both live in the [world] threaded
      through the monad [M], which also carries Python exceptions.
    - Python dicts are insertion-ordered association lists where the order is
      observable (the presence histogram, [filtered_classes], [legend_dict])
      and a [gmap] where only [.get] is used ([class_mapping]).
    - Python floats are binary64 primitive floats.
    - A Python [str] is a [string]; [int()] is modelled as CPython has it on
      ASCII strings.
    - The calls on the collaborators are taken to succeed: only the
      exceptions of the module's own code are modelled. *)

From Stdlib Require Import ZArith Floats Ascii String.
From stdpp Require Import gmap strings list.

Local Open Scope Z_scope.

(** ** Python exceptions and results *)

(** The exceptions that the code of the module itself can raise.  A failure
    inside a collaborator (a request the backend refuses, a widget call that
    fails) is not modelled: every call on [ee] and [geemap] is taken to
    return. *)
Inductive exn : Type :=
| TypeError (msg : string)
| ValueError_invalid_literal (s : string)   (* int(s): invalid literal for int() with base 10 *)
| ValueError_not_in_list (x : Z)            (* list.index(x): x is not in list *)
| ValueError_empty_separator                (* str.split of an empty separator *)
| IndexError_list_index_out_of_range
| KeyError (k : string).

Inductive result (A : Type) : Type :=
| Ok (a : A)
| Raise (e : exn).
Arguments Ok {A} a.
Arguments Raise {A} e.

(** ** Earth Engine objects (client side, lazy) *)

(** [ee.Geometry]: an opaque boundary, here its ring of (lon, lat) vertices. *)
Record geometry : Type := Geometry { coordinates : list (float * float) }.

(** [ee.Image] expressions built by the client. *)
Inductive image : Type :=
| Image (id : string)                       (* ee.Image(id) *)
| Image_pixelArea                           (* ee.Image.pixelArea() *)
| Image_clip (img : image) (g : geometry)   (* img.clip(g) *)
| Image_addBands (img other : image)        (* img.addBands(other) *)
| Image_eq (img : image) (v : Z)            (* img.eq(v) *)
| Image_updateMask (img mask : image).      (* img.updateMask(mask) *)

(** The values a caller may pass as [roi]. *)
Inductive py_object : Type :=
| ee_Geometry (g : geometry)
| ee_Feature (g : geometry)
| ee_FeatureCollection (gs : list geometry)
| ee_Image (img : image)
| py_None
| py_str (s : string)
| py_int (z : Z)
| py_float (f : float)
| py_coords (l : list (float * float)).

(** [isinstance(roi, ee.Geometry)] *)
Definition isinstance_Geometry (roi : py_object) : bool :=
  match roi with
  | ee_Geometry _ => true
  | _ => false
  end.

(** ** Collaborator calls, console output, tables *)

Inductive reducer : Type :=
| frequencyHistogram                        (* ee.Reducer.frequencyHistogram() *)
| sum_group (groupField : Z).               (* ee.Reducer.sum().group(groupField=...) *)

Inductive call : Type :=
| call_ee_Image (id : string)
| call_pixelArea
| call_clip (img : image) (g : geometry)
| call_addBands (img other : image)
| call_get_getInfo (img : image) (property : string)
| call_reduceRegion_getInfo (img : image) (r : reducer) (g : geometry)
    (scale : Z) (maxPixels : float) (key : string)
| call_eq (img : image) (v : Z)
| call_updateMask (img mask : image)
| call_geemap_Map
| call_addLayer (ee_object : image) (palette : list string) (name : string)
| call_add_legend (legend_title : string) (legend_dict : list (string * string))
| call_centerObject (g : geometry) (zoom : Z).

(** One row of the list [data], a dict with the three keys
    "Class", "Class Name" and "Area (ha)". *)
Record row : Type := Row {
  Class : Z;
  Class_Name : string;
  Area_ha : float
}.

(** [pd.DataFrame(data)] for a list of row dicts: the columns are the keys of
    the dicts, so a frame built from the empty list has no column either. *)
Record DataFrame : Type := {
  columns : list string;
  rows : list row
}.

Definition pd_DataFrame (data : list row) : DataFrame :=
  {| columns := match data with
                | [] => []
                | _ :: _ => ["Class"; "Class Name"; "Area (ha)"]
                end;
     rows := data |}.

(** What [print] received.  The f-string of the per-class line is kept with
    its three arguments rather than rendered. *)
Inductive printed : Type :=
| print_str (s : string)
| print_area_line (class_name : string) (landcover_class : Z) (area_ha : float)
| print_frame (df : DataFrame).

Record world : Type := World {
  calls : list call;
  stdout : list printed
}.

Definition empty_world : world := World [] [].

(** ** The monad: exceptions over a threaded world *)

Definition M (A : Type) : Type := world -> result A * world.

Definition ret {A} (a : A) : M A := fun w => (Ok a, w).

Definition raise {A} (e : exn) : M A := fun w => (Raise e, w).

Definition bind {A B} (m : M A) (k : A -> M B) : M B :=
  fun w =>
    match m w with
    | (Ok a, w') => k a w'
    | (Raise e, w') => (Raise e, w')
    end.

Notation "x <- m ;; k" := (bind m (fun x => k))
  (at level 100, m at next level, right associativity).
Notation "m ;; k" := (bind m (fun _ => k))
  (at level 100, right associativity).

Definition log (c : call) : M unit :=
  fun w => (Ok tt, World (calls w ++ [c]) (stdout w)).

Definition print (p : printed) : M unit :=
  fun w => (Ok tt, World (calls w) (stdout w ++ [p])).

Definition when (b : bool) (m : M unit) : M unit :=
  if b then m else ret tt.

(** A [for] loop threading the loop-carried state [s]. *)
Fixpoint for_each {A S} (l : list A) (body : A -> S -> M S) (s : S) : M S :=
  match l with
  | [] => ret s
  | x :: l' => s' <- body x s ;; for_each l' body s'
  end.

(** ** Python built-ins used by the module *)

(** Pure code raises too: [result] is a monad (stdpp's [x ← m; k]). *)
#[global] Instance result_ret : MRet result := fun _ a => Ok a.
#[global] Instance result_bind : MBind result := fun _ _ k m =>
  match m with
  | Ok a => k a
  | Raise e => Raise e
  end.

Definition lift {A} (r : result A) : M A := fun w => (r, w).

(** *** [str.split(sep)] and [list[-1]] *)

(** Scan of [s] from left to right: [cur] is the piece being read, [skip]
    the number of characters of a matched separator still to pass over. *)
Fixpoint split_go (sep : string) (skip : nat) (cur : string) (s : string)
    : list string :=
  match s with
  | EmptyString => [cur]
  | String c s' =>
      match skip with
      | S n => split_go sep n cur s'
      | O =>
          if String.prefix sep s
          then cur :: split_go sep (String.length sep - 1) "" s'
          else split_go sep 0 (cur +:+ String c "") s'
      end
  end.

Definition str_split (s sep : string) : result (list string) :=
  match sep with
  | EmptyString => Raise ValueError_empty_separator
  | String _ _ => Ok (split_go sep 0 "" s)
  end.

(** [l[-1]] *)
Definition list_last {A} (l : list A) : result A :=
  match last l with
  | Some x => Ok x
  | None => Raise IndexError_list_index_out_of_range
  end.

(** [l[i]] for an index [i >= 0] *)
Definition list_getitem {A} (l : list A) (i : nat) : result A :=
  match l !! i with
  | Some x => Ok x
  | None => Raise IndexError_list_index_out_of_range
  end.

(** [l.index(x)]: the first position of [x] *)
Fixpoint index_from (x : Z) (l : list Z) (i : nat) : option nat :=
  match l with
  | [] => None
  | y :: l' => if decide (y = x) then Some i else index_from x l' (S i)
  end.

Definition list_index (l : list Z) (x : Z) : result nat :=
  match index_from x l 0 with
  | Some i => Ok i
  | None => Raise (ValueError_not_in_list x)
  end.

(** *** [int(s)] for a [str]

    Surrounding white space is dropped, one sign is allowed, and the digits
    may be grouped by single underscores.  White space is what C's
    [isspace] accepts: tab, line feed, vertical tab, form feed, carriage
    return and space.  The model is CPython's on ASCII strings; what [int()]
    does beyond ASCII (Unicode white space and digits) and the interpreter's
    limit on the number of digits are outside it, see [plain_key]. *)
Definition is_space (c : ascii) : bool :=
  let n := nat_of_ascii c in
  (((9 <=? n) && (n <=? 13)) || (n =? 32))%nat.

Fixpoint lstrip (s : string) : string :=
  match s with
  | EmptyString => ""
  | String c s' => if is_space c then lstrip s' else s
  end.

Fixpoint rstrip (s : string) : string :=
  match s with
  | EmptyString => ""
  | String c s' =>
      match rstrip s' with
      | EmptyString => if is_space c then "" else String c ""
      | r => String c r
      end
  end.

Definition digit_of (c : ascii) : option Z :=
  let n := nat_of_ascii c in
  if ((48 <=? n) && (n <=? 57))%nat then Some (Z.of_nat n - 48) else None.

Fixpoint digits_go (acc : Z) (after_digit : bool) (s : string) : option Z :=
  match s with
  | EmptyString => if after_digit then Some acc else None
  | String c s' =>
      if Ascii.eqb c "_"
      then (if after_digit then digits_go acc false s' else None)
      else match digit_of c with
           | Some d => digits_go (10 * acc + d) true s'
           | None => None
           end
  end.

Definition int_of_str (s : string) : result Z :=
  let t := rstrip (lstrip s) in
  let '(negative, body) :=
    match t with
    | String "-" r => (true, r)
    | String "+" r => (false, r)
    | _ => (false, t)
    end in
  match digits_go 0 false body with
  | Some n => Ok (if negative : bool then - n else n)
  | None => Raise (ValueError_invalid_literal s)
  end.

(** *** Insertion-ordered dicts *)

Definition dict (K V : Type) : Type := list (K * V).

(** [d[k] = v]: a new key goes last, a known key keeps its place. *)
Fixpoint dict_set {K V} `{EqDecision K} (k : K) (v : V) (d : dict K V)
    : dict K V :=
  match d with
  | [] => [(k, v)]
  | (k', v') :: d' =>
      if decide (k' = k) then (k', v) :: d' else (k', v') :: dict_set k v d'
  end.

Fixpoint dict_lookup {K V} `{EqDecision K} (k : K) (d : dict K V) : option V :=
  match d with
  | [] => None
  | (k', v') :: d' => if decide (k' = k) then Some v' else dict_lookup k d'
  end.

(** [d[k]] for a dict with [str] keys *)
Definition dict_getitem {V} (d : dict string V) (k : string) : result V :=
  match dict_lookup k d with
  | Some v => Ok v
  | None => Raise (KeyError k)
  end.

(** Iterating a dict yields its keys in insertion order. *)
Definition dict_keys {K V} (d : dict K V) : list K := d.*1.

(** [{key(x): value(x) for x in l}] *)
Fixpoint dict_comprehension {A K V} `{EqDecision K}
    (key : A -> result K) (value : A -> result V) (l : list A)
    (acc : dict K V) : result (dict K V) :=
  match l with
  | [] => Ok acc
  | x :: l' =>
      k ← key x;
      v ← value x;
      dict_comprehension key value l' (dict_set k v acc)
  end.

(** [enumerate(l)] *)
Definition enumerate {A} (l : list A) : list (nat * A) :=
  zip (seq 0 (length l)) l.

(** ** The map widget of geemap *)

Record layer : Type := Layer {
  ee_object : image;
  vis_palette : list string;      (* vis_params["palette"] *)
  layer_name : string
}.

Record geemap_Map : Type := {
  layers : list layer;
  legend : option (string * dict string string);   (* title, legend_dict *)
  center : option (geometry * Z)                   (* object, zoom *)
}.

(** [geemap.Map()] *)
Definition Map_new : M geemap_Map :=
  log call_geemap_Map ;;
  ret {| layers := []; legend := None; center := None |}.

Definition addLayer (obj : image) (palette : list string) (name : string)
    (m : geemap_Map) : M geemap_Map :=
  log (call_addLayer obj palette name) ;;
  ret {| layers := layers m ++ [Layer obj palette name];
         legend := legend m; center := center m |}.

Definition add_legend (legend_title : string)
    (legend_dict : dict string string) (m : geemap_Map) : M geemap_Map :=
  log (call_add_legend legend_title legend_dict) ;;
  ret {| layers := layers m; legend := Some (legend_title, legend_dict);
         center := center m |}.

Definition centerObject (g : geometry) (zoom : Z) (m : geemap_Map)
    : M geemap_Map :=
  log (call_centerObject g zoom) ;;
  ret {| layers := layers m; legend := legend m; center := Some (g, zoom) |}.

(** ** The backend *)

(** One record of the ['groups'] list of a grouped reduction: the key
    ['group'] is the value of the class band, an integer, and ['sum'] the
    summed band, a double. *)
Record group_record : Type := Group {
  grp_group : Z;     (* group['group'] *)
  grp_sum : float    (* group['sum'] *)
}.

(** The answers of the Earth Engine backend to the [getInfo] requests of the
    module.  A JSON number decodes to a Python [int] or [float]; either way
    it carries the value of a double, and [/] on it is the correctly rounded
    binary64 quotient. *)
Record backend : Type := {
  landcover_class_names : list string;
  landcover_class_values : list Z;
  landcover_class_palette : list string;
  reduce_frequencyHistogram :
    image -> geometry -> Z -> float -> list (string * float);
  reduce_sum_group :
    image -> geometry -> Z -> float -> list group_record
}.

(** ** visualize_corine_land_cover *)

Section visualize_corine_land_cover.

Variable B : backend.

(** [class_names[class_values.index(k)].split("; ")[-1]] *)
Definition class_display_name (class_names : list string)
    (class_values : list Z) (k : Z) : result string :=
  i ← list_index class_values k;
  name ← list_getitem class_names i;
  pieces ← str_split name "; ";
  list_last pieces.

(** [class_palette[class_values.index(k)]] *)
Definition class_color (class_palette : list string)
    (class_values : list Z) (k : Z) : result string :=
  i ← list_index class_values k;
  list_getitem class_palette i.

(** Body of [for i, class_value in enumerate(filtered_classes)]. *)
Definition layer_loop_body (corine_clipped : image)
    (filtered_class_names filtered_class_palette : list string)
    (x : nat * Z) (m : geemap_Map) : M geemap_Map :=
  let '(i, class_value) := x in
  log (call_eq corine_clipped class_value) ;;
  let mask := Image_eq corine_clipped class_value in
  log (call_updateMask corine_clipped mask) ;;
  let single_class := Image_updateMask corine_clipped mask in
  color <- lift (list_getitem filtered_class_palette i) ;;
  name <- lift (list_getitem filtered_class_names i) ;;
  addLayer single_class ["#" +:+ color] name m.

(** [{filtered_class_names[i]: f"#{filtered_class_palette[i]}" for i in range(...)}] *)
Definition build_legend_dict
    (filtered_class_names filtered_class_palette : list string)
    : result (dict string string) :=
  dict_comprehension
    (fun i => list_getitem filtered_class_names i)
    (fun i => color ← list_getitem filtered_class_palette i; Ok ("#" +:+ color))
    (seq 0 (length filtered_class_names)) [].

(** The function once [roi] is known to be a geometry. *)
Definition visualize_geometry (roi : geometry) (map_title : string)
    : M geemap_Map :=
  log (call_ee_Image "COPERNICUS/CORINE/V20/100m/2018") ;;
  let corine := Image "COPERNICUS/CORINE/V20/100m/2018" in
  log (call_clip corine roi) ;;
  let corine_clipped := Image_clip corine roi in
  log (call_get_getInfo corine "landcover_class_names") ;;
  let class_names := landcover_class_names B in
  log (call_get_getInfo corine "landcover_class_values") ;;
  let class_values := landcover_class_values B in
  log (call_get_getInfo corine "landcover_class_palette") ;;
  let class_palette := landcover_class_palette B in
  log (call_reduceRegion_getInfo corine_clipped frequencyHistogram roi
         100 1e8 "landcover") ;;
  let present_classes :=
    reduce_frequencyHistogram B corine_clipped roi 100 1e8 in
  filtered_classes <-
    lift (dict_comprehension int_of_str (dict_getitem present_classes)
            (dict_keys present_classes) []) ;;
  filtered_class_names <-
    lift (mapM (class_display_name class_names class_values)
            (dict_keys filtered_classes)) ;;
  filtered_class_palette <-
    lift (mapM (class_color class_palette class_values)
            (dict_keys filtered_classes)) ;;
  m <- Map_new ;;
  m <- for_each (enumerate (dict_keys filtered_classes))
         (layer_loop_body corine_clipped
            filtered_class_names filtered_class_palette) m ;;
  legend_dict <-
    lift (build_legend_dict filtered_class_names filtered_class_palette) ;;
  m <- add_legend map_title legend_dict m ;;
  m <- centerObject roi 12 m ;;
  ret m.

Definition visualize_corine_land_cover (roi : py_object) (map_title : string)
    : M geemap_Map :=
  if negb (isinstance_Geometry roi)
  then raise (TypeError "roi must be an instance of ee.Geometry")
  else
    match roi with
    | ee_Geometry g => visualize_geometry g map_title
    | _ => raise (TypeError "roi must be an instance of ee.Geometry")
    end.

End visualize_corine_land_cover.

(** ** compute_landcover_area *)

Section compute_landcover_area.

Variable B : backend.

(** Body of [for group in groups]. *)
Definition area_loop_body (class_mapping : gmap Z string) (verbose : bool)
    (g : group_record) (data : list row) : M (list row) :=
  let landcover_class := grp_group g in
  let class_name := default "Unknown" (class_mapping !! landcover_class) in
  let area_m2 := grp_sum g in
  let area_ha := (area_m2 / 10000)%float in
  when verbose (print (print_area_line class_name landcover_class area_ha)) ;;
  ret (data ++ [Row landcover_class class_name area_ha]).

Definition compute_landcover_area (corine_clipped : image) (roi : geometry)
    (class_mapping : gmap Z string) (scale : Z) (maxPixels : float)
    (verbose : bool) : M DataFrame :=
  log call_pixelArea ;;
  let pixel_area := Image_pixelArea in
  log (call_addBands pixel_area corine_clipped) ;;
  let landcover_with_area := Image_addBands pixel_area corine_clipped in
  log (call_reduceRegion_getInfo landcover_with_area (sum_group 1) roi
         scale maxPixels "groups") ;;
  let groups := reduce_sum_group B landcover_with_area roi scale maxPixels in
  let data := [] in
  when verbose (print (print_str "Landcover area in hectares:")) ;;
  data <- for_each groups (area_loop_body class_mapping verbose) data ;;
  let df := pd_DataFrame data in
  when verbose (print (print_str (String "010" "Pandas DataFrame:")) ;;
                print (print_frame df)) ;;
  ret df.

End compute_landcover_area.

(** * Specification vocabulary *)

(** ** Display names *)

(** [strip_prefix sep s] is the rest of [s] behind its prefix [sep]. *)
Fixpoint strip_prefix (sep s : string) : option string :=
  match sep, s with
  | EmptyString, _ => Some s
  | String a sep', String b s' =>
      if Ascii.eqb a b then strip_prefix sep' s' else None
  | String _ _, EmptyString => None
  end.

(** The suffix of [s] after the last place where [sep] occurs in it, [None]
    when it occurs nowhere. *)
Fixpoint after_last_occurrence (sep s : string) : option string :=
  match s with
  | EmptyString => None
  | String c s' =>
      match after_last_occurrence sep s' with
      | Some r => Some r
      | None => strip_prefix sep s
      end
  end.

(** [r] is the suffix of [s] after the last occurrence of [sep], the whole
    of [s] when [sep] does not occur in it. *)
Definition is_suffix_after_last_occurrence (sep s r : string) : Prop :=
  (exists p, s = p +:+ sep +:+ r /\
     forall p' r', s = p' +:+ sep +:+ r' ->
       (String.length p' <= String.length p)%nat)
  \/ (r = s /\ forall p' r', s <> p' +:+ sep +:+ r').

(** ** The visualizer *)

(** The dataset and the requests made before the histogram is read. *)
Definition corine : image := Image "COPERNICUS/CORINE/V20/100m/2018".

Definition present_classes (B : backend) (roi : geometry)
    : dict string float :=
  reduce_frequencyHistogram B (Image_clip corine roi) roi 100 1e8.

Definition metadata_requests (roi : geometry) : list call :=
  [call_ee_Image "COPERNICUS/CORINE/V20/100m/2018";
   call_clip corine roi;
   call_get_getInfo corine "landcover_class_names";
   call_get_getInfo corine "landcover_class_values";
   call_get_getInfo corine "landcover_class_palette";
   call_reduceRegion_getInfo (Image_clip corine roi) frequencyHistogram roi
     100 1e8 "landcover"].

(** The three metadata lists are parallel sequences of equal length. *)
Definition parallel_metadata (B : backend) : Prop :=
  length (landcover_class_names B) = length (landcover_class_values B) /\
  length (landcover_class_palette B) = length (landcover_class_values B).

(** The class a layer shows: the [v] of its mask [img.eq(v)]. *)
Definition layer_class (l : layer) : option Z :=
  match ee_object l with
  | Image_updateMask _ (Image_eq _ v) => Some v
  | _ => None
  end.

(** The layers and the calls of the loop over the present classes, given the
    names and colors resolved for them. *)
Definition class_layer (clipped : image) (k : Z) (name color : string) : layer :=
  Layer (Image_updateMask clipped (Image_eq clipped k)) ["#" +:+ color] name.

Fixpoint class_layers (clipped : image) (ks : list Z) (ns ps : list string)
    : list layer :=
  match ks, ns, ps with
  | k :: ks', n :: ns', p :: ps' =>
      class_layer clipped k n p :: class_layers clipped ks' ns' ps'
  | _, _, _ => []
  end.

Fixpoint layer_calls (clipped : image) (ks : list Z) (ns ps : list string)
    : list call :=
  match ks, ns, ps with
  | k :: ks', n :: ns', p :: ps' =>
      [call_eq clipped k;
       call_updateMask clipped (Image_eq clipped k);
       call_addLayer (Image_updateMask clipped (Image_eq clipped k))
         ["#" +:+ p] n]
      ++ layer_calls clipped ks' ns' ps'
  | _, _, _ => []
  end.

(** The legend built from the resolved names and colors: a later class
    with a name already seen overwrites the color stored under it. *)
Definition legend_of (ns ps : list string) : dict string string :=
  foldl (fun acc np => dict_set np.1 ("#" +:+ np.2) acc) [] (zip ns ps).

(** The keys of a dict after one more assignment. *)
Definition keys_insert (ks : list Z) (k : Z) : list Z :=
  if decide (k ∈ ks) then ks else ks ++ [k].

(** The claim "the legend entry of the class under histogram key [key]
    carries the palette color of that class". *)
Definition legend_entry_has_class_color (B : backend) (roi : geometry)
    (map_title : string) (w : world) (key : string) : Prop :=
  exists m w' ld k i name color,
    visualize_corine_land_cover B (ee_Geometry roi) map_title w = (Ok m, w') /\
    legend m = Some (map_title, ld) /\
    int_of_str key = Ok k /\
    list_index (landcover_class_values B) k = Ok i /\
    class_display_name (landcover_class_names B) (landcover_class_values B) k
      = Ok name /\
    landcover_class_palette B !! i = Some color /\
    dict_lookup name ld = Some ("#" +:+ color).

Definition layer_class_set (m : geemap_Map) : gset Z :=
  list_to_set (omap layer_class (layers m)).

(** *** Concrete responses *)

Definition unit_square : geometry :=
  Geometry [(0, 0); (0, 1); (1, 1); (1, 0)]%float.

(** Two classes, both present. *)
Definition forest_water_backend : backend := {|
  landcover_class_names := ["Forest and semi natural areas; Forest"; "Water bodies; Water"];
  landcover_class_values := [1; 2];
  landcover_class_palette := ["228B22"; "0000FF"];
  reduce_frequencyHistogram := fun _ _ _ _ => [("1", 120); ("2", 30)]%float;
  reduce_sum_group := fun _ _ _ _ => [Group 1 500000; Group 2 125000]
|}.

(** Two present classes whose names end in the same suffix. *)
Definition shared_suffix_backend : backend := {|
  landcover_class_names := ["Forest; Mixed"; "Wetlands; Mixed"];
  landcover_class_values := [1; 2];
  landcover_class_palette := ["111111"; "222222"];
  reduce_frequencyHistogram := fun _ _ _ _ => [("1", 120); ("2", 30)]%float;
  reduce_sum_group := fun _ _ _ _ => []
|}.

(** A histogram naming class 3, which the metadata does not list. *)
Definition stale_metadata_backend : backend := {|
  landcover_class_names := ["Forest"; "Water"];
  landcover_class_values := [1; 2];
  landcover_class_palette := ["228B22"; "0000FF"];
  reduce_frequencyHistogram := fun _ _ _ _ => [("1", 120); ("3", 7)]%float;
  reduce_sum_group := fun _ _ _ _ => []
|}.

(** A region without classified pixels. *)
Definition empty_region_backend : backend := {|
  landcover_class_names := ["Forest"; "Water"];
  landcover_class_values := [1; 2];
  landcover_class_palette := ["228B22"; "0000FF"];
  reduce_frequencyHistogram := fun _ _ _ _ => [];
  reduce_sum_group := fun _ _ _ _ => []
|}.

(** ** The tabulator *)

(** The row, the printed line and the requests of the tabulator. *)
Definition area_row (class_mapping : gmap Z string) (g : group_record) : row :=
  Row (grp_group g) (default "Unknown" (class_mapping !! grp_group g))
      (grp_sum g / 10000)%float.

Definition area_line (class_mapping : gmap Z string) (g : group_record) : printed :=
  print_area_line (default "Unknown" (class_mapping !! grp_group g))
    (grp_group g) (grp_sum g / 10000)%float.

Definition grouped_sum_request (corine_clipped : image) (roi : geometry)
    (scale : Z) (maxPixels : float) : list call :=
  [call_pixelArea;
   call_addBands Image_pixelArea corine_clipped;
   call_reduceRegion_getInfo (Image_addBands Image_pixelArea corine_clipped)
     (sum_group 1) roi scale maxPixels "groups"].

Definition verbose_report (class_mapping : gmap Z string)
    (groups : list group_record) : list printed :=
  print_str "Landcover area in hectares:"
  :: map (area_line class_mapping) groups
  ++ [print_str (String "010" "Pandas DataFrame:");
      print_frame (pd_DataFrame (map (area_row class_mapping) groups))].

(** ** Further vocabulary *)

(** *** Keys on which the model of [int()] is exact

    [int_of_str] follows CPython on ASCII strings.  Beyond ASCII, [int()]
    also accepts Unicode white space and decimal digits, and an interpreter
    with the default limit refuses literals of more than 4300 digits.  The
    theorems that depend on what [int()] decides therefore take the keys of
    the histogram to be plain: ASCII strings of at most 4300 characters. *)
Definition is_ascii_char (c : ascii) : bool := (nat_of_ascii c <? 128)%nat.

Fixpoint is_ascii_str (s : string) : bool :=
  match s with
  | EmptyString => true
  | String c s' => is_ascii_char c && is_ascii_str s'
  end.

Definition plain_key (s : string) : bool :=
  is_ascii_str s && (String.length s <=? 4300)%nat.

Definition plain_keys (B : backend) (roi : geometry) : Prop :=
  Forall (fun key => plain_key key = true) (dict_keys (present_classes B roi)).

(** The classes for which [m.addLayer] was called, read off a log. *)
Definition added_layer_classes (cs : list call) : list Z :=
  omap (fun c =>
          match c with
          | call_addLayer (Image_updateMask _ (Image_eq _ v)) _ _ => Some v
          | _ => None
          end) cs.

(** The claim "a layer is added for every histogram key and for nothing
    else", on the calls that a run appends to the log. *)
Definition layers_added_for_exactly_the_keys (B : backend) (roi : geometry)
    (map_title : string) (w : world) : Prop :=
  forall z,
    z ∈ added_layer_classes
          (drop (length (calls w))
             (calls (visualize_corine_land_cover B (ee_Geometry roi)
                       map_title w).2))
    <-> exists key,
          key ∈ dict_keys (present_classes B roi) /\ int_of_str key = Ok z.

(** [sep] occurs in [s]. *)
Definition occurs_in (sep s : string) : Prop :=
  exists p r, s = p +:+ sep +:+ r.

(** [sep.join(pieces)] *)
Fixpoint str_join (sep : string) (pieces : list string) : string :=
  match pieces with
  | [] => ""
  | [x] => x
  | x :: rest => x +:+ sep +:+ str_join sep rest
  end.

(** The world after the requests that precede the comprehensions. *)
Definition after_metadata_requests (roi : geometry) (w : world) : world :=
  World (calls w ++ metadata_requests roi) (stdout w).

(** The per-class line that the table's row [r] is printed as. *)
Definition line_of_row (r : row) : printed :=
  print_area_line (Class_Name r) (Class r) (Area_ha r).

(** *** More concrete responses *)

(** A histogram with a key that is no integer literal. *)
Definition fractional_key_backend : backend := {|
  landcover_class_names := ["Forest"; "Water"];
  landcover_class_values := [1; 2];
  landcover_class_palette := ["228B22"; "0000FF"];
  reduce_frequencyHistogram := fun _ _ _ _ => [("1", 120); ("2.0", 30)]%float;
  reduce_sum_group := fun _ _ _ _ => []
|}.

(** Metadata with fewer colors than classes. *)
Definition short_palette_backend : backend := {|
  landcover_class_names := ["Forest"; "Water"];
  landcover_class_values := [1; 2];
  landcover_class_palette := ["228B22"];
  reduce_frequencyHistogram := fun _ _ _ _ => [("1", 120); ("2", 30)]%float;
  reduce_sum_group := fun _ _ _ _ => []
|}.

(** The two classes of [forest_water_backend] with other pixel counts. *)
Definition forest_water_recount_backend : backend := {|
  landcover_class_names := landcover_class_names forest_water_backend;
  landcover_class_values := landcover_class_values forest_water_backend;
  landcover_class_palette := landcover_class_palette forest_water_backend;
  reduce_frequencyHistogram := fun _ _ _ _ => [("1", 1); ("2", 0.5)]%float;
  reduce_sum_group := reduce_sum_group forest_water_backend
|}.

(** * Proofs *)

(** ** The built-ins on examples *)

Example str_split_examples :
  str_split "Water bodies; Inland waters; Water courses" "; "
    = Ok ["Water bodies"; "Inland waters"; "Water courses"] /\
  str_split "a; b; ; c;; d; " "; " = Ok ["a"; "b"; ""; "c;"; "d"; ""] /\
  str_split "" "; " = Ok [""] /\
  str_split "aaa" "aa" = Ok [""; "a"] /\
  str_split "abc" "" = Raise ValueError_empty_separator.
Proof. repeat split. Qed.

Example int_of_str_examples :
  int_of_str "111" = Ok 111 /\
  int_of_str " -1_0 " = Ok (-10) /\
  int_of_str "007" = Ok 7 /\
  int_of_str "1__0" = Raise (ValueError_invalid_literal "1__0") /\
  int_of_str "1.0" = Raise (ValueError_invalid_literal "1.0") /\
  int_of_str "" = Raise (ValueError_invalid_literal "") /\
  int_of_str (String "009" "7") = Ok 7 /\
  int_of_str (String "028" "1")
    = Raise (ValueError_invalid_literal (String "028" "1")).
Proof. repeat split. Qed.

Example dict_set_examples :
  dict_set "b" 9 [("a", 1); ("b", 2); ("c", 3)]
    = [("a", 1); ("b", 9); ("c", 3)] /\
  dict_set "d" 4 [("a", 1); ("b", 2)] = [("a", 1); ("b", 2); ("d", 4)].
Proof. split; reflexivity. Qed.

(** ** Strings: [split] and the last occurrence of the separator *)

Lemma string_app_nil_l s : "" +:+ s = s.
Proof. reflexivity. Qed.

Lemma string_app_cons c s t : String c s +:+ t = String c (s +:+ t).
Proof. reflexivity. Qed.

Lemma string_app_nil_r s : s +:+ "" = s.
Proof. induction s as [|c s IH]; [done|]. by rewrite string_app_cons, IH. Qed.

Lemma string_app_assoc s t u : (s +:+ t) +:+ u = s +:+ t +:+ u.
Proof.
  induction s as [|c s IH]; [done|]. by rewrite !string_app_cons, IH.
Qed.

Lemma strip_prefix_spec sep : forall s r,
  strip_prefix sep s = Some r <-> s = sep +:+ r.
Proof.
  induction sep as [|a sep IH]; intros s r; cbn [strip_prefix].
  - rewrite string_app_nil_l. split; congruence.
  - rewrite string_app_cons. destruct s as [|b s].
    + split; discriminate.
    + destruct (Ascii.eqb_spec a b) as [->|Hne].
      * rewrite IH. split; congruence.
      * split; [discriminate | congruence].
Qed.

Lemma after_last_occurrence_spec a sep s :
  match after_last_occurrence (String a sep) s with
  | Some r =>
      exists p, s = p +:+ String a sep +:+ r /\
        forall p' r', s = p' +:+ String a sep +:+ r' ->
          (String.length p' <= String.length p)%nat
  | None => forall p' r', s <> p' +:+ String a sep +:+ r'
  end.
Proof.
  induction s as [|c s IH]; cbn [after_last_occurrence].
  - intros [|? ?] r'; discriminate.
  - destruct (after_last_occurrence (String a sep) s) as [r|].
    + destruct IH as (p & -> & Hmax). exists (String c p). split; [done|].
      intros [|c' p'] r' Heq; cbn; [lia|].
      rewrite string_app_cons in Heq. injection Heq as _ Heq.
      apply Hmax in Heq. lia.
    + destruct (strip_prefix (String a sep) (String c s)) as [r|] eqn:Hpre.
      * apply strip_prefix_spec in Hpre. exists "". split; [done|].
        intros [|c' p'] r' Heq; cbn; [lia|].
        rewrite string_app_cons in Heq. injection Heq as _ Heq.
        by apply IH in Heq.
      * intros [|c' p'] r' Heq.
        -- rewrite string_app_nil_l in Heq. apply strip_prefix_spec in Heq.
           congruence.
        -- rewrite string_app_cons in Heq. injection Heq as _ Heq.
           by apply IH in Heq.
Qed.

Lemma prefix_nil s : String.prefix "" s = true.
Proof. by destruct s. Qed.

Lemma after_last_occurrence_cons sep c s :
  after_last_occurrence sep (String c s) =
  match after_last_occurrence sep s with
  | Some r => Some r
  | None => strip_prefix sep (String c s)
  end.
Proof. reflexivity. Qed.

Lemma strip_prefix_sep_ne c s :
  c <> ";"%char -> strip_prefix "; " (String c s) = None.
Proof.
  intros Hc. cbn [strip_prefix].
  by destruct (Ascii.eqb_spec ";" c) as [?|_]; [congruence|].
Qed.

Lemma strip_prefix_sep_ne2 c d s :
  d <> " "%char -> strip_prefix "; " (String c (String d s)) = None.
Proof.
  intros Hd. cbn [strip_prefix].
  destruct (Ascii.eqb ";" c); [|done].
  by destruct (Ascii.eqb_spec " " d) as [?|_]; [congruence|].
Qed.

Lemma split_go_last_strong n : forall s cur,
  (String.length s <= n)%nat ->
  last (split_go "; " 0 cur s) =
  Some (match after_last_occurrence "; " s with
        | Some r => r
        | None => cur +:+ s
        end).
Proof.
  induction n as [|n IH]; intros s cur Hlen.
  - destruct s; [|cbn in Hlen; lia]. cbn. by rewrite string_app_nil_r.
  - destruct s as [|c s]; [cbn; by rewrite string_app_nil_r|].
    cbn in Hlen. rewrite after_last_occurrence_cons.
    cbn [split_go String.prefix].
    destruct (ascii_dec ";" c) as [<-|Hc].
    + destruct s as [|d s]; [reflexivity|].
      cbn [String.prefix]. cbn in Hlen.
      destruct (ascii_dec " " d) as [<-|Hd].
      * rewrite prefix_nil. cbn [String.length Nat.sub split_go].
        rewrite last_cons, (IH s "") by lia.
        rewrite after_last_occurrence_cons, strip_prefix_sep_ne by done.
        destruct (after_last_occurrence "; " s); reflexivity.
      * rewrite (IH (String d s)) by (cbn; lia).
        rewrite strip_prefix_sep_ne2 by congruence.
        destruct (after_last_occurrence "; " (String d s)); [done|].
        by rewrite string_app_assoc.
    + rewrite (IH s) by lia. rewrite strip_prefix_sep_ne by congruence.
      destruct (after_last_occurrence "; " s); [done|].
      by rewrite string_app_assoc.
Qed.

Lemma split_go_last s cur :
  last (split_go "; " 0 cur s) =
  Some (match after_last_occurrence "; " s with
        | Some r => r
        | None => cur +:+ s
        end).
Proof. by apply (split_go_last_strong (String.length s)). Qed.

Lemma display_name_suffix name :
  exists r,
    (str_split name "; " ≫= list_last) = Ok r /\
    is_suffix_after_last_occurrence "; " name r.
Proof.
  unfold str_split, list_last. cbn. rewrite split_go_last.
  eexists; split; [reflexivity|].
  pose proof (after_last_occurrence_spec ";" " " name) as H.
  destruct (after_last_occurrence "; " name) as [r|].
  - left. exact H.
  - right. split; [reflexivity | exact H].
Qed.

(** ** Results and lists *)

Lemma mapM_result_cons {A B} (f : A -> result B) x l :
  mapM f (x :: l) =
  match f x with
  | Ok y => match mapM f l with Ok ys => Ok (y :: ys) | Raise e => Raise e end
  | Raise e => Raise e
  end.
Proof. reflexivity. Qed.

Lemma mapM_Ok_Forall2 {A B} (f : A -> result B) l ys :
  mapM f l = Ok ys <-> Forall2 (fun x y => f x = Ok y) l ys.
Proof.
  revert ys. induction l as [|x l IH]; intros ys.
  - split; [intros [= <-]; constructor | by inversion 1].
  - rewrite mapM_result_cons. split.
    + destruct (f x) as [y|e] eqn:Hx; [|discriminate].
      destruct (mapM f l) as [ys'|e] eqn:Hl; [|discriminate].
      intros [= <-]. constructor; [done|]. by apply IH.
    + inversion 1 as [|? y' ? ys'' Hy Hys]; subst.
      apply IH in Hys. by rewrite Hy, Hys.
Qed.

Lemma mapM_Ok_total {A B} (f : A -> result B) l :
  Forall (fun x => exists y, f x = Ok y) l -> exists ys, mapM f l = Ok ys.
Proof.
  induction 1 as [|x l [y Hy] _ [ys IH]].
  - by exists [].
  - exists (y :: ys). apply mapM_Ok_Forall2. constructor; [done|].
    by apply mapM_Ok_Forall2.
Qed.

Lemma mapM_Ok_length {A B} (f : A -> result B) l ys :
  mapM f l = Ok ys -> length ys = length l.
Proof. intros H%mapM_Ok_Forall2. symmetry. by eapply Forall2_length. Qed.

(** *** [list.index] and [list[i]] *)

Lemma index_from_Some x l : forall j i,
  index_from x l j = Some i ->
  (j <= i)%nat /\ l !! (i - j)%nat = Some x /\ (i - j < length l)%nat.
Proof.
  induction l as [|y l IH]; intros j i; cbn; [discriminate|].
  case_decide as Hy.
  - intros [= <-]. subst y. rewrite Nat.sub_diag. cbn. repeat split; lia.
  - intros (Hle & Hlk & Hlt)%IH.
    replace (i - j)%nat with (S (i - S j)) by lia. cbn. repeat split; [lia|done|lia].
Qed.

Lemma index_from_None x l j : index_from x l j = None <-> x ∉ l.
Proof.
  revert j. induction l as [|y l IH]; intros j; cbn.
  - split; [intros _; apply not_elem_of_nil | done].
  - case_decide as Hy.
    + subst y. split; [done|]. intros Hn. exfalso. apply Hn. left.
    + rewrite IH, not_elem_of_cons. intuition congruence.
Qed.

Lemma list_index_Ok l x i :
  list_index l x = Ok i -> l !! i = Some x /\ (i < length l)%nat.
Proof.
  unfold list_index. destruct (index_from x l 0) as [i'|] eqn:H; [|discriminate].
  intros [= <-]. apply index_from_Some in H as (_ & H1 & H2).
  by rewrite Nat.sub_0_r in H1, H2.
Qed.

Lemma list_index_elem l x : x ∈ l -> exists i, list_index l x = Ok i.
Proof.
  intros Hx. unfold list_index.
  destruct (index_from x l 0) as [i|] eqn:H; [by eexists|].
  by apply index_from_None in H.
Qed.

Lemma list_index_not_elem l x :
  x ∉ l -> list_index l x = Raise (ValueError_not_in_list x).
Proof.
  intros Hx%(index_from_None x l 0). unfold list_index. by rewrite Hx.
Qed.

Lemma list_getitem_lt {A} (l : list A) i :
  (i < length l)%nat -> exists x, list_getitem l i = Ok x /\ l !! i = Some x.
Proof.
  intros [x Hx]%lookup_lt_is_Some_2. exists x. unfold list_getitem.
  by rewrite Hx.
Qed.

Lemma list_getitem_Some {A} (l : list A) i x :
  l !! i = Some x -> list_getitem l i = Ok x.
Proof. intros H. unfold list_getitem. by rewrite H. Qed.

Lemma class_display_name_Ok names values k :
  k ∈ values -> (length values <= length names)%nat ->
  exists i full name,
    list_index values k = Ok i /\ names !! i = Some full /\
    class_display_name names values k = Ok name /\
    is_suffix_after_last_occurrence "; " full name.
Proof.
  intros [i Hi]%list_index_elem Hlen.
  destruct (list_index_Ok _ _ _ Hi) as [_ Hlt].
  destruct (list_getitem_lt names i) as (full & Hget & Hfull); [lia|].
  destruct (display_name_suffix full) as (name & Hname & Hspec).
  exists i, full, name. repeat split; try done.
  unfold class_display_name. rewrite Hi. cbn. rewrite Hget. cbn.
  exact Hname.
Qed.

Lemma class_display_name_not_in names values k :
  k ∉ values ->
  class_display_name names values k = Raise (ValueError_not_in_list k).
Proof.
  intros H. unfold class_display_name. by rewrite list_index_not_elem.
Qed.

Lemma class_color_Ok palette values k :
  k ∈ values -> (length values <= length palette)%nat ->
  exists i color,
    list_index values k = Ok i /\ palette !! i = Some color /\
    class_color palette values k = Ok color.
Proof.
  intros [i Hi]%list_index_elem Hlen.
  destruct (list_index_Ok _ _ _ Hi) as [_ Hlt].
  destruct (list_getitem_lt palette i) as (color & Hget & Hcolor); [lia|].
  exists i, color. repeat split; try done.
  unfold class_color. rewrite Hi. cbn. exact Hget.
Qed.

(** *** Dicts *)

Lemma dict_keys_set (k : Z) {V} (v : V) (d : dict Z V) :
  dict_keys (dict_set k v d) = keys_insert (dict_keys d) k.
Proof.
  unfold keys_insert, dict_keys. induction d as [|[k' v'] d IH]; cbn.
  - rewrite decide_False; [done | apply not_elem_of_nil].
  - destruct (decide (k' = k)) as [->|Hne]; cbn.
    + rewrite decide_True; [done | left].
    + rewrite IH. destruct (decide (k ∈ d.*1)) as [Hin|Hnin].
      * rewrite decide_True; [done | by right].
      * rewrite decide_False; [done|].
        rewrite not_elem_of_cons. split; [congruence | done].
Qed.

Lemma dict_lookup_set {K V} `{EqDecision K} (k k0 : K) (v : V) (d : dict K V) :
  dict_lookup k (dict_set k0 v d) =
  if decide (k0 = k) then Some v else dict_lookup k d.
Proof.
  induction d as [|[k' v'] d IH]; cbn.
  - by destruct (decide (k0 = k)).
  - destruct (decide (k' = k0)) as [->|Hne]; cbn.
    + by destruct (decide (k0 = k)).
    + rewrite IH. destruct (decide (k' = k)) as [->|?]; [|done].
      by rewrite decide_False.
Qed.

Lemma dict_getitem_key {V} (d : dict string V) k :
  k ∈ dict_keys d -> exists v, dict_getitem d k = Ok v.
Proof.
  unfold dict_getitem, dict_keys.
  induction d as [|[k' v'] d IH]; cbn; intros Hk.
  - by apply elem_of_nil in Hk.
  - destruct (decide (k' = k)) as [->|Hne]; [by eexists|].
    apply elem_of_cons in Hk as [?|Hk]; [congruence|]. by apply IH.
Qed.

Lemma filtered_classes_run present ids0 : forall ids (acc : dict Z float),
  Forall (fun k => k ∈ dict_keys present) ids0 ->
  mapM int_of_str ids0 = Ok ids ->
  exists filtered,
    dict_comprehension int_of_str (dict_getitem present) ids0 acc
      = Ok filtered /\
    dict_keys filtered = foldl keys_insert (dict_keys acc) ids.
Proof.
  induction ids0 as [|key keys IH]; intros ids acc Hin Hids.
  - injection Hids as <-. by exists acc.
  - rewrite mapM_result_cons in Hids.
    destruct (int_of_str key) as [k|] eqn:Hk; [|discriminate].
    destruct (mapM int_of_str keys) as [ids'|] eqn:Hkeys; [|discriminate].
    injection Hids as <-. apply Forall_cons in Hin as [Hkey Hin].
    destruct (dict_getitem_key present key Hkey) as [v Hv].
    destruct (IH ids' (dict_set k v acc) Hin eq_refl) as (filtered & Hrun & Hks).
    exists filtered. cbn. rewrite Hk. cbn. rewrite Hv. cbn.
    split; [done|]. by rewrite Hks, dict_keys_set.
Qed.

Lemma keys_insert_elem ks k z : z ∈ keys_insert ks k <-> z ∈ ks \/ z = k.
Proof.
  unfold keys_insert. case_decide as Hk.
  - split; [by left | by intros [?| ->]].
  - rewrite elem_of_app, list_elem_of_singleton. done.
Qed.

Lemma foldl_keys_insert_elem ids : forall ks z,
  z ∈ foldl keys_insert ks ids <-> z ∈ ks \/ z ∈ ids.
Proof.
  induction ids as [|k ids IH]; intros ks z; cbn.
  - rewrite elem_of_nil. tauto.
  - rewrite IH, keys_insert_elem, elem_of_cons. tauto.
Qed.

Lemma keys_insert_NoDup ks k : NoDup ks -> NoDup (keys_insert ks k).
Proof.
  intros Hnd. unfold keys_insert. case_decide as Hk; [done|].
  apply NoDup_app. split_and!; [done| |apply NoDup_singleton].
  intros z Hz ->%list_elem_of_singleton. done.
Qed.

Lemma foldl_keys_insert_NoDup ids : forall ks,
  NoDup ks -> NoDup (foldl keys_insert ks ids).
Proof.
  induction ids as [|k ids IH]; intros ks Hnd; cbn; [done|].
  by apply IH, keys_insert_NoDup.
Qed.

(** ** The loops of the visualizer *)

Lemma drop_cons_inv {A} j (l : list A) x l' :
  drop j l = x :: l' -> l !! j = Some x /\ drop (S j) l = l'.
Proof.
  revert l. induction j as [|j IH]; intros [|y l]; cbn; try done.
  - rewrite drop_0. by intros [= -> ->].
  - apply IH.
Qed.

Lemma layer_loop_run clipped ns ps : forall ks j m w ns' ps',
  drop j ns = ns' -> drop j ps = ps' ->
  length ns' = length ks -> length ps' = length ks ->
  for_each (zip (seq j (length ks)) ks) (layer_loop_body clipped ns ps) m w =
  (Ok {| layers := layers m ++ class_layers clipped ks ns' ps';
         legend := legend m; center := center m |},
   World (calls w ++ layer_calls clipped ks ns' ps') (stdout w)).
Proof.
  induction ks as [|k ks IH]; intros j m w ns' ps' Hns Hps Hln Hlp.
  - destruct ns', ps', m, w; try done. cbn. by rewrite !app_nil_r.
  - destruct ns' as [|n ns']; [done|]. destruct ps' as [|p ps']; [done|].
    apply drop_cons_inv in Hns as [Hn Hns], Hps as [Hp Hps].
    cbn [length seq zip zip_with for_each].
    unfold bind at 1. unfold layer_loop_body at 1.
    unfold bind, log, lift, addLayer, ret.
    rewrite (list_getitem_Some _ _ _ Hn), (list_getitem_Some _ _ _ Hp). cbn.
    rewrite (IH (S j) _ _ ns' ps') by (cbn in *; congruence). cbn.
    by rewrite <- !app_assoc.
Qed.

Lemma legend_run (ns ps : list string) : forall (ns' ps' : list string) j acc,
  drop j ns = ns' -> drop j ps = ps' -> length ps' = length ns' ->
  dict_comprehension
    (fun i => list_getitem ns i)
    (fun i => color ← list_getitem ps i; Ok ("#" +:+ color))
    (seq j (length ns')) acc
  = Ok (foldl (fun acc np => dict_set np.1 ("#" +:+ np.2) acc) acc
          (zip ns' ps')).
Proof.
  induction ns' as [|n ns' IH]; intros ps' j acc Hns Hps Hlen.
  - reflexivity.
  - destruct ps' as [|p ps']; [done|].
    apply drop_cons_inv in Hns as [Hn Hns], Hps as [Hp Hps].
    cbn [length seq dict_comprehension].
    rewrite (list_getitem_Some _ _ _ Hn), (list_getitem_Some _ _ _ Hp). cbn.
    apply (IH ps' (S j)); cbn in *; congruence.
Qed.

Lemma build_legend_dict_run (ns ps : list string) :
  length ps = length ns -> build_legend_dict ns ps = Ok (legend_of ns ps).
Proof.
  intros Hlen. unfold build_legend_dict, legend_of.
  by apply (legend_run ns ps ns ps 0).
Qed.

Lemma visualize_geometry_run B roi title w filtered ns ps :
  dict_comprehension int_of_str (dict_getitem (present_classes B roi))
    (dict_keys (present_classes B roi)) [] = Ok filtered ->
  mapM (class_display_name (landcover_class_names B) (landcover_class_values B))
    (dict_keys filtered) = Ok ns ->
  mapM (class_color (landcover_class_palette B) (landcover_class_values B))
    (dict_keys filtered) = Ok ps ->
  visualize_geometry B roi title w =
  (Ok {| layers := class_layers (Image_clip corine roi) (dict_keys filtered) ns ps;
         legend := Some (title, legend_of ns ps);
         center := Some (roi, 12) |},
   World (calls w ++ metadata_requests roi ++ [call_geemap_Map]
            ++ layer_calls (Image_clip corine roi) (dict_keys filtered) ns ps
            ++ [call_add_legend title (legend_of ns ps);
                call_centerObject roi 12])
         (stdout w)).
Proof.
  intros Hf Hn Hp.
  pose proof (mapM_Ok_length _ _ _ Hn) as Hln.
  pose proof (mapM_Ok_length _ _ _ Hp) as Hlp.
  unfold visualize_geometry, present_classes, corine in *.
  unfold bind at 1 2 3 4 5 6 7 8 9. unfold log at 1 2 3 4 5 6, lift at 1 2 3.
  cbn. rewrite Hf, Hn, Hp. unfold Map_new, enumerate.
  unfold bind, log, ret. cbn.
  rewrite (layer_loop_run _ ns ps (dict_keys filtered) 0 _ _ ns ps)
    by (rewrite ?drop_0; done).
  unfold lift. rewrite build_legend_dict_run by congruence. cbn.
  unfold metadata_requests, corine. rewrite <- !app_assoc. reflexivity.
Qed.

Lemma visualize_geometry_raise_names B roi title w filtered e :
  dict_comprehension int_of_str (dict_getitem (present_classes B roi))
    (dict_keys (present_classes B roi)) [] = Ok filtered ->
  mapM (class_display_name (landcover_class_names B) (landcover_class_values B))
    (dict_keys filtered) = Raise e ->
  visualize_geometry B roi title w =
  (Raise e, World (calls w ++ metadata_requests roi) (stdout w)).
Proof.
  intros Hf Hn.
  unfold visualize_geometry, present_classes, corine in *.
  unfold bind, log, lift. cbn. rewrite Hf, Hn.
  unfold metadata_requests, corine. rewrite <- !app_assoc. reflexivity.
Qed.

Lemma class_layers_classes clipped : forall ks (ns ps : list string),
  length ns = length ks -> length ps = length ks ->
  omap layer_class (class_layers clipped ks ns ps) = ks.
Proof.
  induction ks as [|k ks IH]; intros [|n ns] [|p ps] Hn Hp; try done.
  cbn. f_equal. apply IH; cbn in *; congruence.
Qed.

Lemma class_layers_length clipped : forall ks (ns ps : list string),
  length ns = length ks -> length ps = length ks ->
  length (class_layers clipped ks ns ps) = length ks.
Proof.
  induction ks as [|k ks IH]; intros [|n ns] [|p ps] Hn Hp; try done.
  cbn. f_equal. apply IH; cbn in *; congruence.
Qed.

Lemma class_layers_elem clipped l : forall ks (ns ps : list string),
  l ∈ class_layers clipped ks ns ps ->
  exists j k n p,
    ks !! j = Some k /\ ns !! j = Some n /\ ps !! j = Some p /\
    l = class_layer clipped k n p.
Proof.
  induction ks as [|k ks IH]; intros [|n ns] [|p ps] Hl; cbn in Hl;
    try by apply elem_of_nil in Hl.
  apply elem_of_cons in Hl as [->|Hl].
  - by exists 0%nat, k, n, p.
  - destruct (IH _ _ Hl) as (j & k' & n' & p' & ? & ? & ? & ?).
    by exists (S j), k', n', p'.
Qed.

Lemma class_layers_lookup clipped : forall ks (ns ps : list string) j k n p,
  ks !! j = Some k -> ns !! j = Some n -> ps !! j = Some p ->
  class_layer clipped k n p ∈ class_layers clipped ks ns ps.
Proof.
  induction ks as [|k0 ks IH]; intros [|n0 ns] [|p0 ps] [|j] k n p; cbn;
    try done.
  - intros [= ->] [= ->] [= ->]. left.
  - intros Hk Hn Hp. right. by eapply IH.
Qed.

Lemma legend_lookup_absent (n : string) : forall (ns ps : list string) acc,
  n ∉ ns ->
  dict_lookup n
    (foldl (fun acc np => dict_set np.1 ("#" +:+ np.2) acc) acc (zip ns ps))
  = dict_lookup n acc.
Proof.
  induction ns as [|n0 ns IH]; intros [|p0 ps] acc Hn; try done.
  apply not_elem_of_cons in Hn as [Hne Hn]. cbn.
  rewrite IH, dict_lookup_set by done. by rewrite decide_False.
Qed.

Lemma legend_lookup_unique (n p : string) : forall (ns ps : list string) acc j,
  ns !! j = Some n -> ps !! j = Some p ->
  (forall j', ns !! j' = Some n -> j' = j) ->
  dict_lookup n
    (foldl (fun acc np => dict_set np.1 ("#" +:+ np.2) acc) acc (zip ns ps))
  = Some ("#" +:+ p).
Proof.
  induction ns as [|n0 ns IH]; intros [|p0 ps] acc [|j] Hn Hp Huniq;
    try done; cbn in Hn, Hp.
  - injection Hn as ->. injection Hp as ->. cbn.
    rewrite legend_lookup_absent, dict_lookup_set.
    + by rewrite decide_True.
    + intros (j' & Hj')%list_elem_of_lookup.
      by specialize (Huniq (S j') Hj').
  - cbn. apply (IH ps _ j); [done..|].
    intros j' Hj'. specialize (Huniq (S j') Hj'). congruence.
Qed.


Lemma legend_lookup_mono (n : string) : forall (l : list (string * string)) acc,
  is_Some (dict_lookup n acc) ->
  is_Some (dict_lookup n
             (foldl (fun acc np => dict_set np.1 ("#" +:+ np.2) acc) acc l)).
Proof.
  induction l as [|[n0 p0] l IH]; intros acc Hacc; [done|].
  cbn. apply IH. rewrite dict_lookup_set. by case_decide.
Qed.

Lemma legend_lookup_is_Some (n : string) : forall (ns ps : list string) acc j,
  length ps = length ns -> ns !! j = Some n ->
  is_Some (dict_lookup n
             (foldl (fun acc np => dict_set np.1 ("#" +:+ np.2) acc) acc
                (zip ns ps))).
Proof.
  induction ns as [|n0 ns IH]; intros [|p0 ps] acc [|j] Hlen Hn; try done;
    cbn in Hlen, Hn; cbn.
  - injection Hn as ->. apply legend_lookup_mono.
    rewrite dict_lookup_set, decide_True; done.
  - apply (IH ps _ j); [congruence | done].
Qed.

(** ** The run of the tabulator *)

Lemma area_loop_run cm verbose groups : forall data w,
  for_each groups (area_loop_body cm verbose) data w =
  (Ok (data ++ map (area_row cm) groups),
   World (calls w)
         (stdout w ++ if verbose then map (area_line cm) groups else [])).
Proof.
  induction groups as [|g groups IH]; intros data w.
  - destruct w, verbose; cbn; by rewrite !app_nil_r.
  - cbn [for_each]. unfold bind at 1. unfold area_loop_body at 1.
    destruct verbose; cbn; rewrite IH; cbn; by rewrite <- !app_assoc.
Qed.

Lemma compute_landcover_area_run B img roi cm scale maxPixels verbose w :
  compute_landcover_area B img roi cm scale maxPixels verbose w =
  (Ok (pd_DataFrame (map (area_row cm)
         (reduce_sum_group B (Image_addBands Image_pixelArea img) roi scale maxPixels))),
   World (calls w ++ grouped_sum_request img roi scale maxPixels)
         (stdout w ++ if verbose
                      then verbose_report cm
                             (reduce_sum_group B (Image_addBands Image_pixelArea img) roi scale maxPixels)
                      else [])).
Proof.
  unfold compute_landcover_area, verbose_report, grouped_sum_request.
  set (groups := reduce_sum_group _ _ _ _ _).
  destruct verbose; cbn; unfold bind; cbn; rewrite area_loop_run; cbn;
    rewrite <- ?app_assoc; cbn; rewrite ?app_nil_r; try reflexivity.
Qed.

(** ** Every way the visualizer ends *)

Lemma int_of_str_raise s e :
  int_of_str s = Raise e -> e = ValueError_invalid_literal s.
Proof.
  unfold int_of_str.
  match goal with
  | |- context [let '(_, _) := ?X in _] => destruct X as [negative body]
  end.
  destruct (digits_go 0 false body); [done | by intros [= <-]].
Qed.

Lemma mapM_raise_inv {A B} (f : A -> result B) l e :
  mapM f l = Raise e ->
  exists l1 x l2 ys,
    l = l1 ++ x :: l2 /\ mapM f l1 = Ok ys /\ f x = Raise e.
Proof.
  induction l as [|x l IH]; [done|]. rewrite mapM_result_cons.
  destruct (f x) as [y|e'] eqn:Hx.
  - destruct (mapM f l) as [ys|e'] eqn:Hl; [done|].
    intros [= ->]. destruct (IH eq_refl) as (l1 & x' & l2 & ys & -> & H1 & H2).
    exists (x :: l1), x', l2, (y :: ys). split; [done|].
    by rewrite mapM_result_cons, Hx, H1.
  - intros [= ->]. by exists [], x, l, [].
Qed.

Lemma mapM_app_raise {A B} (f : A -> result B) l1 x l2 ys e :
  mapM f l1 = Ok ys -> f x = Raise e -> mapM f (l1 ++ x :: l2) = Raise e.
Proof.
  revert ys. induction l1 as [|y l1 IH]; intros ys H1 Hx.
  - cbn [app]. by rewrite mapM_result_cons, Hx.
  - rewrite mapM_result_cons in H1. cbn [app]. rewrite mapM_result_cons.
    destruct (f y); [|done]. destruct (mapM f l1) as [ys'|] eqn:Hl; [|done].
    by rewrite (IH ys').
Qed.

Lemma filtered_classes_raise present e : forall keys (acc : dict Z float),
  Forall (fun k => k ∈ dict_keys present) keys ->
  mapM int_of_str keys = Raise e ->
  dict_comprehension int_of_str (dict_getitem present) keys acc = Raise e.
Proof.
  induction keys as [|key keys IH]; intros acc Hin Hraise; [done|].
  rewrite mapM_result_cons in Hraise. apply Forall_cons in Hin as [Hkey Hin].
  cbn. destruct (int_of_str key) as [k|e'] eqn:Hk; cbn.
  - destruct (dict_getitem_key present key Hkey) as [v ->]. cbn.
    apply IH; [done|]. by destruct (mapM int_of_str keys).
  - congruence.
Qed.

Lemma visualize_geometry_raise_keys B roi title w e :
  dict_comprehension int_of_str (dict_getitem (present_classes B roi))
    (dict_keys (present_classes B roi)) [] = Raise e ->
  visualize_geometry B roi title w = (Raise e, after_metadata_requests roi w).
Proof.
  intros Hf. unfold visualize_geometry, present_classes, corine in *.
  unfold bind, log, lift. cbn. rewrite Hf.
  unfold after_metadata_requests, metadata_requests, corine.
  rewrite <- !app_assoc. reflexivity.
Qed.

Lemma visualize_geometry_raise_palette B roi title w filtered ns e :
  dict_comprehension int_of_str (dict_getitem (present_classes B roi))
    (dict_keys (present_classes B roi)) [] = Ok filtered ->
  mapM (class_display_name (landcover_class_names B) (landcover_class_values B))
    (dict_keys filtered) = Ok ns ->
  mapM (class_color (landcover_class_palette B) (landcover_class_values B))
    (dict_keys filtered) = Raise e ->
  visualize_geometry B roi title w = (Raise e, after_metadata_requests roi w).
Proof.
  intros Hf Hn Hp. unfold visualize_geometry, present_classes, corine in *.
  unfold bind, log, lift. cbn. rewrite Hf, Hn, Hp.
  unfold after_metadata_requests, metadata_requests, corine.
  rewrite <- !app_assoc. reflexivity.
Qed.

(** The histogram enters the run through its keys only: either a key is no
    integer and the dict comprehension raises, or the keys of
    [filtered_classes] are the integers in order of first occurrence. *)
Lemma filtered_classes_cases B roi :
  match mapM int_of_str (dict_keys (present_classes B roi)) with
  | Ok ids =>
      exists filtered,
        dict_comprehension int_of_str (dict_getitem (present_classes B roi))
          (dict_keys (present_classes B roi)) [] = Ok filtered /\
        dict_keys filtered = foldl keys_insert [] ids
  | Raise e =>
      dict_comprehension int_of_str (dict_getitem (present_classes B roi))
        (dict_keys (present_classes B roi)) [] = Raise e
  end.
Proof.
  destruct (mapM int_of_str (dict_keys (present_classes B roi)))
    as [ids|e] eqn:Hids.
  - by apply (filtered_classes_run _ _ ids []); [apply Forall_forall|].
  - by apply filtered_classes_raise; [apply Forall_forall|].
Qed.

(** The run of the visualizer on a geometry, by cases on the three
    comprehensions. *)
Lemma visualize_geometry_cases B roi title w :
  (exists e,
     visualize_geometry B roi title w
       = (Raise e, after_metadata_requests roi w)) \/
  (exists filtered ns ps,
     dict_comprehension int_of_str (dict_getitem (present_classes B roi))
       (dict_keys (present_classes B roi)) [] = Ok filtered /\
     mapM (class_display_name (landcover_class_names B)
             (landcover_class_values B)) (dict_keys filtered) = Ok ns /\
     mapM (class_color (landcover_class_palette B)
             (landcover_class_values B)) (dict_keys filtered) = Ok ps /\
     visualize_geometry B roi title w =
     (Ok {| layers := class_layers (Image_clip corine roi)
                        (dict_keys filtered) ns ps;
            legend := Some (title, legend_of ns ps);
            center := Some (roi, 12) |},
      World (calls w ++ metadata_requests roi ++ [call_geemap_Map]
               ++ layer_calls (Image_clip corine roi) (dict_keys filtered)
                    ns ps
               ++ [call_add_legend title (legend_of ns ps);
                   call_centerObject roi 12])
            (stdout w))).
Proof.
  destruct (dict_comprehension int_of_str
              (dict_getitem (present_classes B roi))
              (dict_keys (present_classes B roi)) []) as [filtered|e] eqn:Hf.
  - destruct (mapM (class_display_name (landcover_class_names B)
                      (landcover_class_values B)) (dict_keys filtered))
      as [ns|e] eqn:Hns.
    + destruct (mapM (class_color (landcover_class_palette B)
                        (landcover_class_values B)) (dict_keys filtered))
        as [ps|e] eqn:Hps.
      * right. exists filtered, ns, ps. split_and!; try done.
        by apply visualize_geometry_run.
      * left. exists e. by eapply visualize_geometry_raise_palette.
    + left. exists e. rewrite (visualize_geometry_raise_names _ _ _ _ _ _ Hf Hns).
      reflexivity.
  - left. exists e. by apply visualize_geometry_raise_keys.
Qed.

Lemma layer_calls_length clipped : forall ks (ns ps : list string),
  length ns = length ks -> length ps = length ks ->
  length (layer_calls clipped ks ns ps) = (3 * length ks)%nat.
Proof.
  induction ks as [|k ks IH]; intros [|n ns] [|p ps] Hn Hp; try done.
  cbn [layer_calls length app]. rewrite IH by (cbn in *; congruence).
  cbn. lia.
Qed.

Lemma class_display_name_raise_listed names values k e :
  k ∈ values ->
  class_display_name names values k = Raise e ->
  e = IndexError_list_index_out_of_range.
Proof.
  intros [i Hi]%list_index_elem. unfold class_display_name. rewrite Hi. cbn.
  unfold list_getitem. destruct (names !! i) as [full|]; cbn.
  - destruct (display_name_suffix full) as (r & Hr & _).
    cbn in Hr. rewrite Hr. done.
  - by intros [= <-].
Qed.

Lemma class_display_name_Ok_inv names values k name :
  class_display_name names values k = Ok name ->
  exists i full, list_index values k = Ok i /\ names !! i = Some full.
Proof.
  unfold class_display_name. destruct (list_index values k) as [i|]; [|done].
  cbn. unfold list_getitem.
  destruct (names !! i) as [full|] eqn:Hfull; [|done].
  intros _. by exists i, full.
Qed.

Lemma class_color_raise_listed palette values k e :
  k ∈ values ->
  class_color palette values k = Raise e ->
  e = IndexError_list_index_out_of_range.
Proof.
  intros [i Hi]%list_index_elem. unfold class_color. rewrite Hi. cbn.
  unfold list_getitem. destruct (palette !! i); [done | by intros [= <-]].
Qed.

Lemma class_color_Ok_inv palette values k color :
  class_color palette values k = Ok color ->
  exists i, list_index values k = Ok i /\ palette !! i = Some color.
Proof.
  unfold class_color. destruct (list_index values k) as [i|]; [|done].
  cbn. unfold list_getitem.
  destruct (palette !! i) as [c|] eqn:Hc; [|done].
  intros [= <-]. by exists i.
Qed.

Lemma mapM_raise_elem {A B} (f : A -> result B) l e :
  mapM f l = Raise e -> exists x, x ∈ l /\ f x = Raise e.
Proof.
  intros (l1 & x & l2 & ys & -> & _ & Hx)%mapM_raise_inv.
  exists x. split; [|done]. apply elem_of_app. right. left.
Qed.

(** ** The visualizer: claims *)

Lemma visualize_geometry_object B g map_title :
  visualize_corine_land_cover B (ee_Geometry g) map_title =
  visualize_geometry B g map_title.
Proof. reflexivity. Qed.

Lemma mapM_int_keys (keys : list string) ids z :
  mapM int_of_str keys = Ok ids ->
  z ∈ ids <-> exists key, key ∈ keys /\ int_of_str key = Ok z.
Proof.
  intros H%mapM_Ok_Forall2. induction H as [|key k keys ids Hk _ IH].
  - split; [by intros ?%elem_of_nil | by intros (? & ?%elem_of_nil & _)].
  - rewrite elem_of_cons, IH. split.
    + intros [->|(key' & ? & ?)].
      * exists key. split; [left | done].
      * exists key'. split; [by right | done].
    + intros (key' & [->|?]%elem_of_cons & Hz).
      * left. congruence.
      * right. by exists key'.
Qed.

Lemma class_display_name_Ok_spec names values k name :
  class_display_name names values k = Ok name ->
  exists i full,
    list_index values k = Ok i /\ names !! i = Some full /\
    is_suffix_after_last_occurrence "; " full name.
Proof.
  unfold class_display_name. destruct (list_index values k) as [i|]; [|done].
  cbn. unfold list_getitem.
  destruct (names !! i) as [full|] eqn:Hfull; [|done]. cbn.
  destruct (display_name_suffix full) as (r & Hr & Hspec).
  cbn in Hr. rewrite Hr. intros [= <-]. by exists i, full.
Qed.

Lemma class_display_name_raise_cases names values k e :
  class_display_name names values k = Raise e ->
  ((k ∉ values) /\ e = ValueError_not_in_list k) \/
  e = IndexError_list_index_out_of_range.
Proof.
  destruct (decide (k ∈ values)) as [Hin|Hout].
  - intros ->%class_display_name_raise_listed; [by right | done].
  - rewrite class_display_name_not_in by done. intros [= <-]. by left.
Qed.

Lemma class_color_raise_cases palette values k e :
  class_color palette values k = Raise e ->
  ((k ∉ values) /\ e = ValueError_not_in_list k) \/
  e = IndexError_list_index_out_of_range.
Proof.
  destruct (decide (k ∈ values)) as [Hin|Hout].
  - intros ->%class_color_raise_listed; [by right | done].
  - unfold class_color. rewrite list_index_not_elem by done.
    intros [= <-]. by left.
Qed.

Lemma added_layer_classes_app cs1 cs2 :
  added_layer_classes (cs1 ++ cs2) =
  added_layer_classes cs1 ++ added_layer_classes cs2.
Proof. apply omap_app. Qed.

Lemma added_layer_classes_layer_calls clipped :
  forall ks (ns ps : list string),
  length ns = length ks -> length ps = length ks ->
  added_layer_classes (layer_calls clipped ks ns ps) = ks.
Proof.
  induction ks as [|k ks IH]; intros [|n ns] [|p ps] Hn Hp; try done.
  cbn [layer_calls]. rewrite added_layer_classes_app, IH
    by (cbn in *; congruence).
  reflexivity.
Qed.

(** What a returned map is made of. *)
Lemma returned_map_inv B roi map_title w m w' :
  visualize_corine_land_cover B (ee_Geometry roi) map_title w = (Ok m, w') ->
  exists ids (filtered : dict Z float) ns ps,
    mapM int_of_str (dict_keys (present_classes B roi)) = Ok ids /\
    NoDup (dict_keys filtered) /\
    (forall z, z ∈ dict_keys filtered <-> z ∈ ids) /\
    Forall2 (fun k n =>
               class_display_name (landcover_class_names B)
                 (landcover_class_values B) k = Ok n)
      (dict_keys filtered) ns /\
    Forall2 (fun k p =>
               class_color (landcover_class_palette B)
                 (landcover_class_values B) k = Ok p)
      (dict_keys filtered) ps /\
    m = {| layers := class_layers (Image_clip corine roi)
                       (dict_keys filtered) ns ps;
           legend := Some (map_title, legend_of ns ps);
           center := Some (roi, 12) |} /\
    calls w' =
      calls w ++ metadata_requests roi ++ [call_geemap_Map]
        ++ layer_calls (Image_clip corine roi) (dict_keys filtered) ns ps
        ++ [call_add_legend map_title (legend_of ns ps);
            call_centerObject roi 12].
Proof.
  rewrite visualize_geometry_object. intros Hrun.
  destruct (visualize_geometry_cases B roi map_title w)
    as [(e' & H)|(filtered & ns & ps & Hf & Hns & Hps & H)]; [congruence|].
  rewrite H in Hrun. apply pair_equal_spec in Hrun as [[= <-] <-].
  pose proof (filtered_classes_cases B roi) as Hcases.
  destruct (mapM int_of_str (dict_keys (present_classes B roi)))
    as [ids|e]; [|congruence].
  destruct Hcases as (filtered' & Hf' & Hkeys).
  assert (filtered' = filtered) as -> by congruence.
  exists ids, filtered, ns, ps. split_and!; try done.
  - rewrite Hkeys. apply foldl_keys_insert_NoDup. constructor.
  - intros z. rewrite Hkeys, foldl_keys_insert_elem. cbn.
    rewrite elem_of_nil. tauto.
  - by apply mapM_Ok_Forall2.
  - by apply mapM_Ok_Forall2.
Qed.

(** The spec's scenario: two present classes give two layers with their
    names and colors, a legend of two entries and a view centered at zoom
    12. *)
Example forest_water_map :
  (visualize_corine_land_cover forest_water_backend (ee_Geometry unit_square)
     "CORINE Land Cover Classes" empty_world).1 =
  Ok {| layers :=
          [class_layer (Image_clip corine unit_square) 1 "Forest" "228B22";
           class_layer (Image_clip corine unit_square) 2 "Water" "0000FF"];
        legend := Some ("CORINE Land Cover Classes",
                        [("Forest", "#228B22"); ("Water", "#0000FF")]);
        center := Some (unit_square, 12) |}.
Proof. vm_compute. reflexivity. Qed.

(** C1: a [roi] that is not an [ee.Geometry] makes the call raise the
    [TypeError] of the guard (the spec's [InvalidArgument]), and the world is
    returned as it was received: no call on a collaborator, hence no metadata
    fetch, clip or histogram reduction, has been logged. *)
Theorem non_geometry_raises_before_any_request B roi map_title w :
  isinstance_Geometry roi = false ->
  visualize_corine_land_cover B roi map_title w =
  (Raise (TypeError "roi must be an instance of ee.Geometry"), w).
Proof.
  intros Hroi. unfold visualize_corine_land_cover. by rewrite Hroi.
Qed.

Lemma non_geometry_raises_before_any_request_witness :
  isinstance_Geometry (py_str "POLYGON((0 0, 0 1, 1 1, 0 0))") = false /\
  visualize_corine_land_cover forest_water_backend
    (py_str "POLYGON((0 0, 0 1, 1 1, 0 0))") "CORINE Land Cover Classes"
    empty_world =
  (Raise (TypeError "roi must be an instance of ee.Geometry"), empty_world).
Proof.
  split; [reflexivity|].
  apply (non_geometry_raises_before_any_request forest_water_backend
           (py_str "POLYGON((0 0, 0 1, 1 1, 0 0))")).
  reflexivity.
Defined.

(** C5: when the presence histogram is empty the call returns a map with no
    layer and with the empty legend mapping; besides the metadata and
    histogram requests it only creates the map, adds the legend and centers
    the view. *)
Theorem empty_histogram_gives_empty_map B roi map_title w :
  present_classes B roi = [] ->
  visualize_corine_land_cover B (ee_Geometry roi) map_title w =
  (Ok {| layers := []; legend := Some (map_title, []);
         center := Some (roi, 12) |},
   World (calls w ++ metadata_requests roi
            ++ [call_geemap_Map; call_add_legend map_title [];
                call_centerObject roi 12])
         (stdout w)).
Proof.
  intros Hempty. rewrite visualize_geometry_object.
  rewrite (visualize_geometry_run B roi map_title w [] [] []);
    by rewrite ?Hempty.
Qed.

Lemma empty_histogram_gives_empty_map_witness :
  present_classes empty_region_backend unit_square = [] /\
  visualize_corine_land_cover empty_region_backend (ee_Geometry unit_square)
    "CORINE Land Cover Classes" empty_world =
  (Ok {| layers := [];
         legend := Some ("CORINE Land Cover Classes", []);
         center := Some (unit_square, 12) |},
   World (calls empty_world ++ metadata_requests unit_square
            ++ [call_geemap_Map;
                call_add_legend "CORINE Land Cover Classes" [];
                call_centerObject unit_square 12])
         (stdout empty_world)).
Proof.
  split; [reflexivity|].
  apply (empty_histogram_gives_empty_map empty_region_backend unit_square).
  reflexivity.
Defined.



(** C4, as stated, fails: two present classes whose names end in the same
    suffix share one legend entry, which carries the color of the later
    class.  Here class 1 has palette color 111111 and its legend entry
    "Mixed" carries #222222. *)
Lemma legend_color_shared_suffix_counterexample :
  "1" ∈ dict_keys (present_classes shared_suffix_backend unit_square) /\
  ~ legend_entry_has_class_color shared_suffix_backend unit_square
      "CORINE Land Cover Classes" empty_world "1".
Proof.
  split; [left|].
  intros (m & w' & ld & k & i & name & color
          & Hrun & Hleg & Hk & Hi & Hname & Hcolor & Hlk).
  vm_compute in Hrun. injection Hrun as <- _.
  vm_compute in Hleg. injection Hleg as <-.
  vm_compute in Hk. injection Hk as <-.
  vm_compute in Hi. injection Hi as <-.
  vm_compute in Hname. injection Hname as <-.
  vm_compute in Hcolor. injection Hcolor as <-.
  vm_compute in Hlk. discriminate Hlk.
Qed.

(** *** Consistent responses

    The invariants of the data model: the metadata lists are parallel, the
    keys of the histogram are integers written as strings, and every class
    they name is listed in the metadata. *)

Section consistent_responses.

Variables (B : backend) (roi : geometry).
Variable ids : list Z.

Hypothesis metadata_parallel : parallel_metadata B.
Hypothesis keys_are_integers :
  mapM int_of_str (dict_keys (present_classes B roi)) = Ok ids.
Hypothesis classes_are_listed : ids ⊆ landcover_class_values B.

(** The three comprehensions succeed. *)
Lemma comprehensions_run :
  exists filtered ns ps,
    dict_comprehension int_of_str (dict_getitem (present_classes B roi))
      (dict_keys (present_classes B roi)) [] = Ok filtered /\
    mapM (class_display_name (landcover_class_names B)
            (landcover_class_values B)) (dict_keys filtered) = Ok ns /\
    mapM (class_color (landcover_class_palette B)
            (landcover_class_values B)) (dict_keys filtered) = Ok ps /\
    NoDup (dict_keys filtered) /\
    (forall z, z ∈ dict_keys filtered <-> z ∈ ids).
Proof.
  destruct metadata_parallel as [Hn Hp].
  destruct (filtered_classes_run (present_classes B roi)
              (dict_keys (present_classes B roi)) ids [])
    as (filtered & Hf & Hkeys); [by apply Forall_forall | done |].
  assert (Helem : forall z, z ∈ dict_keys filtered <-> z ∈ ids).
  { intros z. rewrite Hkeys, foldl_keys_insert_elem. cbn.
    rewrite elem_of_nil. tauto. }
  destruct (mapM_Ok_total
              (class_display_name (landcover_class_names B)
                 (landcover_class_values B)) (dict_keys filtered))
    as [ns Hns].
  { apply Forall_forall. intros k Hk%Helem%classes_are_listed.
    destruct (class_display_name_Ok (landcover_class_names B) _ k Hk)
      as (? & ? & name & _ & _ & ? & _); [lia | by exists name]. }
  destruct (mapM_Ok_total
              (class_color (landcover_class_palette B)
                 (landcover_class_values B)) (dict_keys filtered))
    as [ps Hps].
  { apply Forall_forall. intros k Hk%Helem%classes_are_listed.
    destruct (class_color_Ok (landcover_class_palette B) _ k Hk)
      as (? & color & _ & _ & ?); [lia | by exists color]. }
  exists filtered, ns, ps. split_and!; try done.
  rewrite Hkeys. apply foldl_keys_insert_NoDup. constructor.
Qed.

End consistent_responses.

(** *** Returned maps *)

(** C3, as stated, fails: the histogram of [stale_metadata_backend] has the
    key "1", but the call raises on the key "3", which the metadata does not
    list, and no layer is added, for class 1 or any other. *)
Lemma no_layer_for_listed_key_counterexample :
  ~ layers_added_for_exactly_the_keys stale_metadata_backend unit_square
      "CORINE Land Cover Classes" empty_world.
Proof.
  intros Hclaim. destruct (Hclaim 1) as [_ Hadded].
  assert (Hin : exists key,
            key ∈ dict_keys (present_classes stale_metadata_backend
                               unit_square) /\
            int_of_str key = Ok 1).
  { exists "1". split; [left | reflexivity]. }
  apply Hadded in Hin. vm_compute in Hin. inversion Hin.
Qed.

(** C3, amended: whenever the call returns a map, a layer was added for
    every histogram key and for nothing else: the classes of the
    [addLayer] calls of the run, and the classes of the layers of the map,
    are exactly the integers that the keys of the histogram denote, one
    layer per class. *)
Theorem layer_classes_are_histogram_keys B roi map_title w m w' :
  visualize_corine_land_cover B (ee_Geometry roi) map_title w = (Ok m, w') ->
  layers_added_for_exactly_the_keys B roi map_title w /\
  (forall z,
     (exists l, l ∈ layers m /\ layer_class l = Some z) <->
     (exists key, key ∈ dict_keys (present_classes B roi) /\
                  int_of_str key = Ok z)) /\
  length (layers m) = size (layer_class_set m).
Proof.
  intros Hrun.
  destruct (returned_map_inv _ _ _ _ _ _ Hrun)
    as (ids & filtered & ns & ps & Hids & Hnd & Helem & Hns & Hps & -> & Hcalls).
  pose proof (Forall2_length _ _ _ Hns) as Hln.
  pose proof (Forall2_length _ _ _ Hps) as Hlp.
  assert (Hkeys : forall z,
            z ∈ dict_keys filtered <->
            exists key, key ∈ dict_keys (present_classes B roi) /\
                        int_of_str key = Ok z).
  { intros z. by rewrite Helem, (mapM_int_keys _ ids z Hids). }
  split_and!.
  - intros z. rewrite <- Hkeys, Hrun. cbn [snd]. rewrite Hcalls.
    rewrite drop_app_length, !added_layer_classes_app.
    rewrite added_layer_classes_layer_calls by done.
    cbn. by rewrite app_nil_r.
  - intros z. rewrite <- Hkeys. cbn [layers]. split.
    + intros (l & Hl & Hz).
      apply class_layers_elem in Hl as (j & k & n & p & Hk & _ & _ & ->).
      injection Hz as <-. by eapply list_elem_of_lookup_2.
    + intros (j & Hj)%list_elem_of_lookup.
      destruct (lookup_lt_is_Some_2 ns j) as [n Hn];
        [rewrite <- Hln; by eapply lookup_lt_Some|].
      destruct (lookup_lt_is_Some_2 ps j) as [p Hp];
        [rewrite <- Hlp; by eapply lookup_lt_Some|].
      exists (class_layer (Image_clip corine roi) z n p).
      split; [by eapply class_layers_lookup | done].
  - unfold layer_class_set. cbn [layers].
    rewrite class_layers_classes, class_layers_length by done.
    by rewrite size_list_to_set.
Qed.

Lemma layer_classes_are_histogram_keys_witness :
  exists m w',
    visualize_corine_land_cover forest_water_backend (ee_Geometry unit_square)
      "CORINE Land Cover Classes" empty_world = (Ok m, w') /\
    layers_added_for_exactly_the_keys forest_water_backend unit_square
      "CORINE Land Cover Classes" empty_world /\
    (forall z,
       (exists l, l ∈ layers m /\ layer_class l = Some z) <->
       (exists key,
          key ∈ dict_keys (present_classes forest_water_backend unit_square) /\
          int_of_str key = Ok z)) /\
    length (layers m) = size (layer_class_set m).
Proof.
  eexists _, _. split; [vm_compute; reflexivity|].
  eapply (layer_classes_are_histogram_keys forest_water_backend unit_square
            "CORINE Land Cover Classes" empty_world).
  vm_compute. reflexivity.
Defined.

(** C7: whenever the call returns a map, every histogram key denotes a
    class whose metadata name is found, and the suffix of that name after
    the last "; " (the whole name when it has no "; ") is the name of the
    layer of that class and a key of the legend. *)
Theorem display_name_is_suffix_after_last_separator
    B roi map_title w m w' :
  visualize_corine_land_cover B (ee_Geometry roi) map_title w = (Ok m, w') ->
  exists legend_dict,
    legend m = Some (map_title, legend_dict) /\
    forall key,
      key ∈ dict_keys (present_classes B roi) ->
      exists k i full name,
        int_of_str key = Ok k /\
        list_index (landcover_class_values B) k = Ok i /\
        landcover_class_names B !! i = Some full /\
        is_suffix_after_last_occurrence "; " full name /\
        (exists l, l ∈ layers m /\ layer_class l = Some k) /\
        (forall l, l ∈ layers m -> layer_class l = Some k ->
                   layer_name l = name) /\
        is_Some (dict_lookup name legend_dict).
Proof.
  intros Hrun.
  destruct (returned_map_inv _ _ _ _ _ _ Hrun)
    as (ids & filtered & ns & ps & Hids & Hnd & Helem & Hns & Hps & -> & _).
  pose proof (Forall2_length _ _ _ Hns) as Hln.
  pose proof (Forall2_length _ _ _ Hps) as Hlp.
  eexists. split; [reflexivity|]. cbn [layers].
  intros key Hkey.
  pose proof Hids as Hall. apply mapM_Ok_Forall2 in Hall.
  apply list_elem_of_lookup in Hkey as [a Ha].
  destruct (Forall2_lookup_l _ _ _ _ _ Hall Ha) as (k & Hka & Hk).
  assert (Hkin : k ∈ dict_keys filtered)
    by (apply Helem; by eapply list_elem_of_lookup_2).
  apply list_elem_of_lookup in Hkin as [j Hj].
  destruct (Forall2_lookup_l _ _ _ _ _ Hns Hj) as (name & Hn & Hdisp).
  destruct (Forall2_lookup_l _ _ _ _ _ Hps Hj) as (p & Hp & _).
  destruct (class_display_name_Ok_spec _ _ _ _ Hdisp)
    as (i & full & Hi & Hfull & Hspec).
  exists k, i, full, name. split_and!; try done.
  - exists (class_layer (Image_clip corine roi) k name p).
    split; [by eapply class_layers_lookup | done].
  - intros l Hl Hclass.
    apply class_layers_elem in Hl as (j' & k' & n & p' & Hk' & Hn' & _ & ->).
    injection Hclass as ->. cbn.
    destruct (Forall2_lookup_l _ _ _ _ _ Hns Hk') as (n' & Hn'' & Hdisp').
    congruence.
  - apply legend_lookup_is_Some with (j := j); [congruence | done].
Qed.

Lemma display_name_is_suffix_after_last_separator_witness :
  exists m w',
    visualize_corine_land_cover forest_water_backend (ee_Geometry unit_square)
      "CORINE Land Cover Classes" empty_world = (Ok m, w') /\
    exists legend_dict,
      legend m = Some ("CORINE Land Cover Classes", legend_dict) /\
      forall key,
        key ∈ dict_keys (present_classes forest_water_backend unit_square) ->
        exists k i full name,
          int_of_str key = Ok k /\
          list_index (landcover_class_values forest_water_backend) k = Ok i /\
          landcover_class_names forest_water_backend !! i = Some full /\
          is_suffix_after_last_occurrence "; " full name /\
          (exists l, l ∈ layers m /\ layer_class l = Some k) /\
          (forall l, l ∈ layers m -> layer_class l = Some k ->
                     layer_name l = name) /\
          is_Some (dict_lookup name legend_dict).
Proof.
  eexists _, _. split; [vm_compute; reflexivity|].
  eapply (display_name_is_suffix_after_last_separator forest_water_backend
            unit_square "CORINE Land Cover Classes" empty_world).
  vm_compute. reflexivity.
Defined.

(** C4, amended: whenever the call returns a map, for every histogram key
    whose class shares its display name with no other present class, the
    legend entry under that display name carries "#" followed by the
    palette entry at the index of the class in the value list. *)
Theorem legend_color_of_unshared_name B roi map_title w m w' key k :
  visualize_corine_land_cover B (ee_Geometry roi) map_title w = (Ok m, w') ->
  key ∈ dict_keys (present_classes B roi) ->
  int_of_str key = Ok k ->
  (forall key' k' name,
     key' ∈ dict_keys (present_classes B roi) ->
     int_of_str key' = Ok k' ->
     class_display_name (landcover_class_names B) (landcover_class_values B) k
       = Ok name ->
     class_display_name (landcover_class_names B) (landcover_class_values B) k'
       = Ok name ->
     k' = k) ->
  legend_entry_has_class_color B roi map_title w key.
Proof.
  intros Hrun Hkey Hk Hunshared.
  destruct (returned_map_inv _ _ _ _ _ _ Hrun)
    as (ids & filtered & ns & ps & Hids & Hnd & Helem & Hns & Hps & Hm & _).
  assert (Hkin : k ∈ ids) by (apply (mapM_int_keys _ ids k Hids); eauto).
  pose proof Hkin as Hkf. apply Helem, list_elem_of_lookup in Hkf as [j Hj].
  destruct (Forall2_lookup_l _ _ _ _ _ Hns Hj) as (name & Hn & Hdisp).
  destruct (Forall2_lookup_l _ _ _ _ _ Hps Hj) as (color & Hp & Hcol).
  destruct (class_display_name_Ok_spec _ _ _ _ Hdisp)
    as (i & full & Hi & Hfull & Hspec).
  destruct (class_color_Ok_inv _ _ _ _ Hcol) as (i' & Hi' & Hcolor).
  assert (i' = i) as -> by congruence.
  unfold legend_entry_has_class_color.
  exists m, w', (legend_of ns ps), k, i, name, color.
  split_and!; try done; [by rewrite Hm|]. unfold legend_of.
  apply legend_lookup_unique with (j := j); [done..|].
  intros j' Hj'.
  destruct (Forall2_lookup_r _ _ _ _ _ Hns Hj') as (k' & Hk' & Hdisp').
  assert (k' = k) as ->.
  { assert (k' ∈ ids) as Hk'in
      by (apply Helem; by eapply list_elem_of_lookup_2).
    apply (mapM_int_keys _ ids k' Hids) in Hk'in as (key' & Hkey' & Hint').
    by apply (Hunshared key' k' name). }
  by eapply NoDup_lookup.
Qed.

Lemma legend_color_of_unshared_name_witness :
  legend_entry_has_class_color forest_water_backend unit_square
    "CORINE Land Cover Classes" empty_world "2".
Proof.
  eapply (legend_color_of_unshared_name forest_water_backend unit_square
            "CORINE Land Cover Classes" empty_world _ _ "2" 2).
  - vm_compute. reflexivity.
  - right. left.
  - reflexivity.
  - intros key' k' name Hkey' Hint' Hname Hname'.
    vm_compute in Hname. injection Hname as <-.
    apply elem_of_cons in Hkey' as [->|Hkey'].
    + vm_compute in Hint'. injection Hint' as <-.
      vm_compute in Hname'. discriminate Hname'.
    + apply elem_of_cons in Hkey' as [->|Hkey'].
      * vm_compute in Hint'. by injection Hint' as <-.
      * by apply elem_of_nil in Hkey'.
Defined.

(** ** The tabulator: claims *)

(** C2: the table has one row per group record of the backend's answer, in
    the answer's order; the row of a group holds its key, the name the
    mapping gives the key ("Unknown" when it gives none) and its sum divided
    by 10000.  On the scenario of the spec the rows are (1, "Forest", 50.0)
    and (2, "Unknown", 12.5). *)
Theorem table_has_one_row_per_group :
  (forall B corine_clipped roi class_mapping scale maxPixels verbose w,
     exists df w',
       compute_landcover_area B corine_clipped roi class_mapping scale
         maxPixels verbose w = (Ok df, w') /\
       rows df =
       map (fun g =>
              Row (grp_group g)
                  (default "Unknown" (class_mapping !! grp_group g))
                  (grp_sum g / 10000)%float)
           (reduce_sum_group B (Image_addBands Image_pixelArea corine_clipped)
              roi scale maxPixels)) /\
  (exists df w',
     compute_landcover_area forest_water_backend
       (Image_clip corine unit_square) unit_square {[1 := "Forest"]}
       100 1e8 true empty_world = (Ok df, w') /\
     rows df = [Row 1 "Forest" 50; Row 2 "Unknown" 12.5]).
Proof.
  split.
  - intros. eexists _, _. rewrite compute_landcover_area_run.
    split; reflexivity.
  - eexists _, _. rewrite compute_landcover_area_run.
    split; [reflexivity|]. vm_compute. reflexivity.
Qed.

(** C6: a group whose key the caller's mapping does not hold gets a row, at
    the group's position, with that key and the class name "Unknown". *)
Theorem unmapped_class_is_named_Unknown
    B corine_clipped roi (class_mapping : gmap Z string) scale maxPixels
    verbose w (i : nat) g :
  reduce_sum_group B (Image_addBands Image_pixelArea corine_clipped)
    roi scale maxPixels !! i = Some g ->
  class_mapping !! grp_group g = None ->
  exists df w' r,
    compute_landcover_area B corine_clipped roi class_mapping scale
      maxPixels verbose w = (Ok df, w') /\
    rows df !! i = Some r /\
    Class r = grp_group g /\
    Class_Name r = "Unknown".
Proof.
  intros Hg Hnone. eexists _, _, _. rewrite compute_landcover_area_run.
  split; [reflexivity|]. cbn [rows pd_DataFrame].
  rewrite list_lookup_fmap, Hg. cbn.
  split; [reflexivity|]. unfold area_row. cbn. by rewrite Hnone.
Qed.

Lemma unmapped_class_is_named_Unknown_witness :
  exists df w' r,
    compute_landcover_area forest_water_backend
      (Image_clip corine unit_square) unit_square {[1 := "Forest"]}
      100 1e8 true empty_world = (Ok df, w') /\
    rows df !! 1%nat = Some r /\
    Class r = 2 /\
    Class_Name r = "Unknown".
Proof.
  apply (unmapped_class_is_named_Unknown forest_water_backend
           (Image_clip corine unit_square) unit_square {[1 := "Forest"]}
           100 1e8 true empty_world 1 (Group 2 125000)).
  - reflexivity.
  - reflexivity.
Defined.

(** C9: two calls that differ only in [verbose] return the same table and
    make the same calls on the backend; the call with [verbose] false leaves
    the console as it was, the other one appends its report to it. *)
Theorem verbose_does_not_change_the_table
    B corine_clipped roi class_mapping scale maxPixels w :
  (compute_landcover_area B corine_clipped roi class_mapping scale
     maxPixels true w).1 =
  (compute_landcover_area B corine_clipped roi class_mapping scale
     maxPixels false w).1 /\
  calls (compute_landcover_area B corine_clipped roi class_mapping scale
           maxPixels true w).2 =
  calls (compute_landcover_area B corine_clipped roi class_mapping scale
           maxPixels false w).2 /\
  stdout (compute_landcover_area B corine_clipped roi class_mapping scale
            maxPixels false w).2 = stdout w /\
  stdout (compute_landcover_area B corine_clipped roi class_mapping scale
            maxPixels true w).2 =
  stdout w ++
  verbose_report class_mapping
    (reduce_sum_group B (Image_addBands Image_pixelArea corine_clipped)
       roi scale maxPixels).
Proof.
  rewrite !compute_landcover_area_run. cbn. by rewrite app_nil_r.
Qed.

(** C10: when the backend answers with no group record the call returns the
    table without rows (and, as pandas builds it from an empty list, without
    columns); nothing is raised. *)
Theorem no_group_gives_empty_table
    B corine_clipped roi class_mapping scale maxPixels verbose w :
  reduce_sum_group B (Image_addBands Image_pixelArea corine_clipped)
    roi scale maxPixels = [] ->
  exists w',
    compute_landcover_area B corine_clipped roi class_mapping scale
      maxPixels verbose w = (Ok {| columns := []; rows := [] |}, w').
Proof.
  intros Hnone. eexists. rewrite compute_landcover_area_run, Hnone.
  reflexivity.
Qed.

Lemma no_group_gives_empty_table_witness :
  exists w',
    compute_landcover_area empty_region_backend
      (Image_clip corine unit_square) unit_square {[1 := "Forest"]}
      100 1e8 true empty_world = (Ok {| columns := []; rows := [] |}, w').
Proof.
  apply (no_group_gives_empty_table empty_region_backend
           (Image_clip corine unit_square) unit_square {[1 := "Forest"]}
           100 1e8 true empty_world).
  reflexivity.
Defined.

(** * Further properties *)

(** ** How a run ends *)

(** X1: with plain keys, the exceptions that the function's own code
    raises on a geometry are the [ValueError] of [int()] for a histogram key, the [ValueError]
    of [list.index] for a class that the value list lacks, and [IndexError]
    for a metadata list that is too short.  When one of them is raised, the
    calls made are exactly the six requests for the image, the clip, the
    metadata and the histogram: no map was created and nothing was printed.
    (Failures of the collaborators themselves are not modelled.) *)
Theorem failure_comes_before_the_map B roi map_title w e w' :
  plain_keys B roi ->
  visualize_corine_land_cover B (ee_Geometry roi) map_title w
    = (Raise e, w') ->
  ((exists key, key ∈ dict_keys (present_classes B roi) /\
                e = ValueError_invalid_literal key) \/
   (exists k, (k ∉ landcover_class_values B) /\
              e = ValueError_not_in_list k) \/
   e = IndexError_list_index_out_of_range) /\
  calls w' = calls w ++ metadata_requests roi /\
  stdout w' = stdout w /\
  call_geemap_Map ∉ metadata_requests roi.
Proof.
  rewrite visualize_geometry_object. intros _ Hrun.
  assert (w' = after_metadata_requests roi w) as ->.
  { destruct (visualize_geometry_cases B roi map_title w)
      as [(e' & H)|(filtered & ns & ps & _ & _ & _ & H)]; congruence. }
  split_and!; [|done..|].
  - pose proof (filtered_classes_cases B roi) as Hcases.
    destruct (mapM int_of_str (dict_keys (present_classes B roi)))
      as [ids|e0] eqn:Hids.
    + destruct Hcases as (filtered & Hf & _).
      destruct (mapM (class_display_name (landcover_class_names B)
                        (landcover_class_values B)) (dict_keys filtered))
        as [ns|e1] eqn:Hns.
      * destruct (mapM (class_color (landcover_class_palette B)
                          (landcover_class_values B)) (dict_keys filtered))
          as [ps|e2] eqn:Hps.
        -- rewrite (visualize_geometry_run B roi map_title w filtered ns ps)
             in Hrun by done.
           discriminate Hrun.
        -- rewrite (visualize_geometry_raise_palette B roi map_title w
                      filtered ns e2) in Hrun by done.
           injection Hrun as <-.
           destruct (mapM_raise_elem _ _ _ Hps) as (k & _ & Hk).
           apply class_color_raise_cases in Hk as [[Hout ->]| ->];
             [right; left; by exists k | by right; right].
      * rewrite (visualize_geometry_raise_names B roi map_title w
                   filtered e1) in Hrun by done.
        injection Hrun as <-.
        destruct (mapM_raise_elem _ _ _ Hns) as (k & _ & Hk).
        apply class_display_name_raise_cases in Hk as [[Hout ->]| ->];
          [right; left; by exists k | by right; right].
    + rewrite (visualize_geometry_raise_keys B roi map_title w e0) in Hrun
        by done.
      injection Hrun as <-.
      destruct (mapM_raise_elem _ _ _ Hids) as (key & Hkey & Hraise).
      apply int_of_str_raise in Hraise as ->. left. by exists key.
  - unfold metadata_requests. intros H.
    repeat (apply elem_of_cons in H as [H|H]; [discriminate H|]).
    by apply elem_of_nil in H.
Qed.

Lemma failure_comes_before_the_map_witness :
  ((exists key,
      key ∈ dict_keys (present_classes stale_metadata_backend unit_square) /\
      ValueError_not_in_list 3 = ValueError_invalid_literal key) \/
   (exists k, (k ∉ landcover_class_values stale_metadata_backend) /\
              ValueError_not_in_list 3 = ValueError_not_in_list k) \/
   ValueError_not_in_list 3 = IndexError_list_index_out_of_range) /\
  calls (after_metadata_requests unit_square empty_world)
    = calls empty_world ++ metadata_requests unit_square /\
  stdout (after_metadata_requests unit_square empty_world)
    = stdout empty_world /\
  call_geemap_Map ∉ metadata_requests unit_square.
Proof.
  apply (failure_comes_before_the_map stale_metadata_backend unit_square
           "CORINE Land Cover Classes" empty_world (ValueError_not_in_list 3)).
  - repeat constructor.
  - reflexivity.
Defined.

(** X2: whenever the call returns a map, the map is centered on [roi] at
    zoom 12 and its legend bears [map_title]; nothing was printed, and the
    calls made number nine (six requests, the map, the legend, the centering)
    plus three per layer (mask predicate, mask, layer). *)
Theorem returned_map_is_centered_and_titled B roi map_title w m w' :
  visualize_corine_land_cover B (ee_Geometry roi) map_title w = (Ok m, w') ->
  center m = Some (roi, 12) /\
  (exists legend_dict, legend m = Some (map_title, legend_dict)) /\
  stdout w' = stdout w /\
  length (calls w') = (length (calls w) + 9 + 3 * length (layers m))%nat.
Proof.
  rewrite visualize_geometry_object. intros Hrun.
  destruct (visualize_geometry_cases B roi map_title w)
    as [(e' & H)|(filtered & ns & ps & _ & Hns & Hps & H)]; [congruence|].
  rewrite H in Hrun. apply pair_equal_spec in Hrun as [[= <-] <-].
  pose proof (mapM_Ok_length _ _ _ Hns) as Hln.
  pose proof (mapM_Ok_length _ _ _ Hps) as Hlp.
  split_and!; [done | by eexists | done |]. cbn [calls layers].
  rewrite !length_app, layer_calls_length, class_layers_length by done.
  cbn. lia.
Qed.

Lemma returned_map_is_centered_and_titled_witness :
  exists m w',
    visualize_corine_land_cover forest_water_backend (ee_Geometry unit_square)
      "CORINE Land Cover Classes" empty_world = (Ok m, w') /\
    center m = Some (unit_square, 12) /\
    (exists legend_dict,
       legend m = Some ("CORINE Land Cover Classes", legend_dict)) /\
    stdout w' = stdout empty_world /\
    length (calls w') = (length (calls empty_world) + 9 + 3 * length (layers m))%nat.
Proof.
  eexists _, _. split; [vm_compute; reflexivity|].
  apply (returned_map_is_centered_and_titled forest_water_backend unit_square
           "CORINE Land Cover Classes" empty_world).
  vm_compute. reflexivity.
Defined.

(** ** Ill-formed responses *)

(** X3: among plain keys, a histogram key that is no integer literal makes
    the call raise the [ValueError] of [int()] for the first such key; this
    happens in the dict comprehension, before any class is looked up in the
    metadata, whatever the metadata and the other keys are. *)
Theorem non_integer_key_raises B roi map_title w good bad rest ids e :
  plain_keys B roi ->
  dict_keys (present_classes B roi) = good ++ bad :: rest ->
  mapM int_of_str good = Ok ids ->
  int_of_str bad = Raise e ->
  visualize_corine_land_cover B (ee_Geometry roi) map_title w =
  (Raise (ValueError_invalid_literal bad), after_metadata_requests roi w).
Proof.
  intros _ Hkeys Hgood Hbad. rewrite visualize_geometry_object.
  apply visualize_geometry_raise_keys.
  pose proof (filtered_classes_cases B roi) as Hcases.
  rewrite Hkeys, (mapM_app_raise _ _ _ _ _ _ Hgood Hbad) in Hcases.
  rewrite Hkeys. by rewrite (int_of_str_raise _ _ Hbad) in Hcases.
Qed.

Lemma non_integer_key_raises_witness :
  visualize_corine_land_cover fractional_key_backend (ee_Geometry unit_square)
    "CORINE Land Cover Classes" empty_world =
  (Raise (ValueError_invalid_literal "2.0"),
   after_metadata_requests unit_square empty_world).
Proof.
  apply (non_integer_key_raises fractional_key_backend unit_square
           "CORINE Land Cover Classes" empty_world ["1"] "2.0" [] [1]
           (ValueError_invalid_literal "2.0")).
  - repeat constructor.
  - reflexivity.
  - reflexivity.
  - reflexivity.
Defined.

(** X4: when the keys are plain integer literals and every present class is
    listed in the value list, but the name list or the palette list is too
    short to hold the index of one of them, the call raises [IndexError]
    (list index out of range), again before a map is created. *)
Theorem short_metadata_list_raises_IndexError B roi map_title w ids k i :
  plain_keys B roi ->
  mapM int_of_str (dict_keys (present_classes B roi)) = Ok ids ->
  ids ⊆ landcover_class_values B ->
  k ∈ ids ->
  list_index (landcover_class_values B) k = Ok i ->
  (length (landcover_class_names B) <= i)%nat \/
  (length (landcover_class_palette B) <= i)%nat ->
  visualize_corine_land_cover B (ee_Geometry roi) map_title w =
  (Raise IndexError_list_index_out_of_range, after_metadata_requests roi w).
Proof.
  intros _ Hids Hsub Hk Hi Hshort. rewrite visualize_geometry_object.
  pose proof (filtered_classes_cases B roi) as Hcases. rewrite Hids in Hcases.
  destruct Hcases as (filtered & Hf & Hkeys).
  assert (Helem : forall z, z ∈ dict_keys filtered <-> z ∈ ids).
  { intros z. rewrite Hkeys, foldl_keys_insert_elem. cbn.
    rewrite elem_of_nil. tauto. }
  destruct (mapM (class_display_name (landcover_class_names B)
                    (landcover_class_values B)) (dict_keys filtered))
    as [ns|e] eqn:Hns.
  - destruct (mapM (class_color (landcover_class_palette B)
                      (landcover_class_values B)) (dict_keys filtered))
      as [ps|e] eqn:Hps.
    + exfalso. apply Helem, list_elem_of_lookup in Hk as [j Hj].
      apply mapM_Ok_Forall2 in Hns, Hps.
      destruct (Forall2_lookup_l _ _ _ _ _ Hns Hj) as (n & _ & Hn).
      destruct (Forall2_lookup_l _ _ _ _ _ Hps Hj) as (p & _ & Hp).
      apply class_display_name_Ok_inv in Hn as (i1 & full & Hi1 & Hfull).
      apply class_color_Ok_inv in Hp as (i2 & Hi2 & Hcolor).
      assert (i1 = i) as -> by congruence.
      assert (i2 = i) as -> by congruence.
      apply lookup_lt_Some in Hfull, Hcolor. lia.
    + destruct (mapM_raise_elem _ _ _ Hps) as (k' & Hk' & Hraise).
      apply class_color_raise_listed in Hraise as ->;
        [|by apply Hsub, Helem].
      by eapply visualize_geometry_raise_palette.
  - destruct (mapM_raise_elem _ _ _ Hns) as (k' & Hk' & Hraise).
    apply class_display_name_raise_listed in Hraise as ->;
      [|by apply Hsub, Helem].
    rewrite (visualize_geometry_raise_names _ _ _ _ _ _ Hf Hns). reflexivity.
Qed.

Lemma short_metadata_list_raises_IndexError_witness :
  visualize_corine_land_cover short_palette_backend (ee_Geometry unit_square)
    "CORINE Land Cover Classes" empty_world =
  (Raise IndexError_list_index_out_of_range,
   after_metadata_requests unit_square empty_world).
Proof.
  apply (short_metadata_list_raises_IndexError short_palette_backend
           unit_square "CORINE Land Cover Classes" empty_world [1; 2] 2 1).
  - repeat constructor.
  - reflexivity.
  - intros z Hz. exact Hz.
  - right. left.
  - reflexivity.
  - right. cbn. lia.
Defined.

(** ** Layers and legend of a returned map *)

Lemma foldl_keys_insert_NoDup_app ids : forall ks,
  NoDup (ks ++ ids) -> foldl keys_insert ks ids = ks ++ ids.
Proof.
  induction ids as [|k ids IH]; intros ks Hnd; cbn.
  - by rewrite app_nil_r.
  - assert (k ∉ ks) as Hk.
    { apply NoDup_app in Hnd as (_ & Hdisj & _). intros Hin.
      apply (Hdisj k Hin). left. }
    unfold keys_insert at 2. rewrite decide_False by done.
    rewrite IH; rewrite <- app_assoc; done.
Qed.

Lemma class_layers_lookup_inv clipped : forall ks (ns ps : list string) j l,
  class_layers clipped ks ns ps !! j = Some l ->
  exists k n p,
    ks !! j = Some k /\ ns !! j = Some n /\ ps !! j = Some p /\
    l = class_layer clipped k n p.
Proof.
  induction ks as [|k ks IH]; intros [|n ns] [|p ps] j l Hl; try done.
  destruct j as [|j]; cbn in Hl.
  - injection Hl as <-. by exists k, n, p.
  - destruct (IH _ _ _ _ Hl) as (k' & n' & p' & ? & ? & ? & ?).
    by exists k', n', p'.
Qed.

(** X5: with consistent responses whose keys are plain and name distinct
    integers, the call returns a map whose layers follow the histogram's
    order: the i-th layer shows the
    class of the i-th key, masks the clipped image to it, and is painted
    with "#" followed by the palette entry of that class, also when classes
    share a display name. *)
Theorem layers_follow_histogram_order B roi map_title w ids :
  parallel_metadata B ->
  plain_keys B roi ->
  mapM int_of_str (dict_keys (present_classes B roi)) = Ok ids ->
  ids ⊆ landcover_class_values B ->
  NoDup ids ->
  exists m w',
    visualize_corine_land_cover B (ee_Geometry roi) map_title w = (Ok m, w') /\
    length (layers m) = length ids /\
    forall j l,
      layers m !! j = Some l ->
      exists k i color,
        ids !! j = Some k /\
        list_index (landcover_class_values B) k = Ok i /\
        landcover_class_palette B !! i = Some color /\
        ee_object l =
          Image_updateMask (Image_clip corine roi)
            (Image_eq (Image_clip corine roi) k) /\
        vis_palette l = ["#" +:+ color] /\
        class_display_name (landcover_class_names B)
          (landcover_class_values B) k = Ok (layer_name l).
Proof.
  intros Hpar _ Hids Hsub Hnd.
  destruct (comprehensions_run B roi ids Hpar Hids Hsub)
    as (filtered & ns & ps & Hf & Hns & Hps & _ & _).
  pose proof (filtered_classes_cases B roi) as Hcases. rewrite Hids in Hcases.
  destruct Hcases as (filtered' & Hf' & Hkeys).
  assert (filtered' = filtered) as -> by congruence.
  rewrite foldl_keys_insert_NoDup_app in Hkeys by done. cbn in Hkeys.
  pose proof (mapM_Ok_length _ _ _ Hns) as Hln.
  pose proof (mapM_Ok_length _ _ _ Hps) as Hlp.
  eexists _, _. rewrite visualize_geometry_object.
  rewrite (visualize_geometry_run B roi map_title w filtered ns ps) by done.
  split; [reflexivity|]. cbn [layers].
  split; [by rewrite class_layers_length, Hkeys|].
  intros j l Hl.
  apply class_layers_lookup_inv in Hl as (k & n & p & Hk & Hn & Hp & ->).
  apply mapM_Ok_Forall2 in Hns, Hps.
  destruct (Forall2_lookup_l _ _ _ _ _ Hns Hk) as (n' & Hn' & Hdisp).
  destruct (Forall2_lookup_l _ _ _ _ _ Hps Hk) as (p' & Hp' & Hcol).
  assert (n' = n) as -> by congruence.
  assert (p' = p) as -> by congruence.
  apply class_color_Ok_inv in Hcol as (i & Hi & Hcolor).
  exists k, i, p. rewrite <- Hkeys. by split_and!.
Qed.

Lemma layers_follow_histogram_order_witness :
  exists m w',
    visualize_corine_land_cover shared_suffix_backend (ee_Geometry unit_square)
      "CORINE Land Cover Classes" empty_world = (Ok m, w') /\
    length (layers m) = length [1; 2] /\
    forall j l,
      layers m !! j = Some l ->
      exists k i color,
        [1; 2] !! j = Some k /\
        list_index (landcover_class_values shared_suffix_backend) k = Ok i /\
        landcover_class_palette shared_suffix_backend !! i = Some color /\
        ee_object l =
          Image_updateMask (Image_clip corine unit_square)
            (Image_eq (Image_clip corine unit_square) k) /\
        vis_palette l = ["#" +:+ color] /\
        class_display_name (landcover_class_names shared_suffix_backend)
          (landcover_class_values shared_suffix_backend) k
          = Ok (layer_name l).
Proof.
  apply (layers_follow_histogram_order shared_suffix_backend unit_square
           "CORINE Land Cover Classes" empty_world [1; 2]).
  - split; reflexivity.
  - repeat constructor.
  - reflexivity.
  - intros z Hz. exact Hz.
  - apply NoDup_cons. split.
    + intros H. apply elem_of_cons in H as [H|H]; [discriminate H|].
      by apply elem_of_nil in H.
    + apply NoDup_singleton.
Defined.

(** *** The legend dict *)

Lemma dict_set_keys_elem {K V} `{EqDecision K} (k k0 : K) (v : V) d :
  k ∈ dict_keys (dict_set k0 v d) <-> k = k0 \/ k ∈ dict_keys d.
Proof.
  unfold dict_keys. induction d as [|[k' v'] d IH]; cbn.
  - rewrite list_elem_of_singleton, elem_of_nil. tauto.
  - destruct (decide (k' = k0)) as [->|Hne]; cbn.
    + rewrite elem_of_cons. tauto.
    + rewrite !elem_of_cons, IH. tauto.
Qed.

Lemma dict_set_keys_NoDup {K V} `{EqDecision K} (k0 : K) (v : V) d :
  NoDup (dict_keys d) -> NoDup (dict_keys (dict_set k0 v d)).
Proof.
  induction d as [|[k' v'] d IH]; cbn.
  - intros _. apply NoDup_singleton.
  - intros [Hk' Hd]%NoDup_cons. destruct (decide (k' = k0)) as [->|Hne]; cbn.
    + by apply NoDup_cons.
    + apply NoDup_cons. split; [|by apply IH].
      intros [?|?]%(dict_set_keys_elem k' k0 v d); [congruence | by apply Hk'].
Qed.

Lemma legend_fold_keys_NoDup : forall (l : list (string * string)) acc,
  NoDup (dict_keys acc) ->
  NoDup (dict_keys
           (foldl (fun acc np => dict_set np.1 ("#" +:+ np.2) acc) acc l)).
Proof.
  induction l as [|[n p] l IH]; intros acc Hacc; [done|].
  cbn. by apply IH, dict_set_keys_NoDup.
Qed.

Lemma legend_fold_keys_elem (name : string) :
  forall (l : list (string * string)) acc,
  name ∈ dict_keys
           (foldl (fun acc np => dict_set np.1 ("#" +:+ np.2) acc) acc l)
  <-> name ∈ dict_keys acc \/ name ∈ l.*1.
Proof.
  induction l as [|[n p] l IH]; intros acc.
  - cbn. rewrite elem_of_nil. tauto.
  - cbn [foldl]. rewrite IH, dict_set_keys_elem, fmap_cons, elem_of_cons.
    cbn. tauto.
Qed.

Lemma legend_fold_lookup (name c : string) :
  forall (l : list (string * string)) acc,
  dict_lookup name
    (foldl (fun acc np => dict_set np.1 ("#" +:+ np.2) acc) acc l) = Some c ->
  dict_lookup name acc = Some c \/
  exists p, (name, p) ∈ l /\ c = "#" +:+ p.
Proof.
  induction l as [|[n p] l IH]; intros acc; cbn; [by left|].
  intros [Hacc|(p' & Hin & ->)]%IH.
  - rewrite dict_lookup_set in Hacc. case_decide as Hn; [|by left].
    cbn in Hn. subst n. injection Hacc as <-. right. exists p.
    split; [left | done].
  - right. exists p'. split; [by right | done].
Qed.

(** X6: with consistent responses whose keys are plain, the call returns a
    map whose legend dict has one entry per display name:
    its keys are without repetition and are exactly the display names of
    the present classes, and the color stored under a name is "#" followed
    by the palette entry of a present class bearing that name. *)
Theorem legend_has_one_entry_per_display_name B roi map_title w ids :
  parallel_metadata B ->
  plain_keys B roi ->
  mapM int_of_str (dict_keys (present_classes B roi)) = Ok ids ->
  ids ⊆ landcover_class_values B ->
  exists m w' legend_dict,
    visualize_corine_land_cover B (ee_Geometry roi) map_title w = (Ok m, w') /\
    legend m = Some (map_title, legend_dict) /\
    NoDup (dict_keys legend_dict) /\
    (forall name,
       name ∈ dict_keys legend_dict <->
       exists k, k ∈ ids /\
         class_display_name (landcover_class_names B)
           (landcover_class_values B) k = Ok name) /\
    (forall name c,
       dict_lookup name legend_dict = Some c ->
       exists k color, k ∈ ids /\
         class_display_name (landcover_class_names B)
           (landcover_class_values B) k = Ok name /\
         class_color (landcover_class_palette B)
           (landcover_class_values B) k = Ok color /\
         c = "#" +:+ color).
Proof.
  intros Hpar _ Hids Hsub.
  destruct (comprehensions_run B roi ids Hpar Hids Hsub)
    as (filtered & ns & ps & Hf & Hns & Hps & _ & Helem).
  pose proof (mapM_Ok_length _ _ _ Hns) as Hln.
  pose proof (mapM_Ok_length _ _ _ Hps) as Hlp.
  eexists _, _, _. rewrite visualize_geometry_object.
  rewrite (visualize_geometry_run B roi map_title w filtered ns ps) by done.
  split; [reflexivity|]. split; [reflexivity|]. unfold legend_of.
  apply mapM_Ok_Forall2 in Hns, Hps.
  split_and!.
  - apply legend_fold_keys_NoDup. constructor.
  - intros name. rewrite legend_fold_keys_elem.
    rewrite fst_zip by lia. cbn. rewrite elem_of_nil. split.
    + intros [[]|(j & Hj)%list_elem_of_lookup].
      destruct (Forall2_lookup_r _ _ _ _ _ Hns Hj) as (k & Hk & Hdisp).
      exists k. split; [|done]. apply Helem. by eapply list_elem_of_lookup_2.
    + intros (k & (j & Hj)%Helem%list_elem_of_lookup & Hdisp).
      destruct (Forall2_lookup_l _ _ _ _ _ Hns Hj) as (n & Hn & Hdisp').
      right. assert (n = name) as -> by congruence.
      by eapply list_elem_of_lookup_2.
  - intros name c [Hnil|(p & Hin & ->)]%legend_fold_lookup; [done|].
    apply list_elem_of_lookup in Hin as [j Hj].
    apply lookup_zip_with_Some in Hj as (n & p' & [= <- <-] & Hn & Hp).
    destruct (Forall2_lookup_r _ _ _ _ _ Hns Hn) as (k & Hk & Hdisp).
    destruct (Forall2_lookup_l _ _ _ _ _ Hps Hk) as (p'' & Hp'' & Hcol).
    assert (p'' = p) as -> by congruence.
    exists k, p. split_and!; try done.
    apply Helem. by eapply list_elem_of_lookup_2.
Qed.

Lemma legend_has_one_entry_per_display_name_witness :
  exists m w' legend_dict,
    visualize_corine_land_cover shared_suffix_backend (ee_Geometry unit_square)
      "CORINE Land Cover Classes" empty_world = (Ok m, w') /\
    legend m = Some ("CORINE Land Cover Classes", legend_dict) /\
    NoDup (dict_keys legend_dict) /\
    (forall name,
       name ∈ dict_keys legend_dict <->
       exists k, k ∈ [1; 2] /\
         class_display_name (landcover_class_names shared_suffix_backend)
           (landcover_class_values shared_suffix_backend) k = Ok name) /\
    (forall name c,
       dict_lookup name legend_dict = Some c ->
       exists k color, k ∈ [1; 2] /\
         class_display_name (landcover_class_names shared_suffix_backend)
           (landcover_class_values shared_suffix_backend) k = Ok name /\
         class_color (landcover_class_palette shared_suffix_backend)
           (landcover_class_values shared_suffix_backend) k = Ok color /\
         c = "#" +:+ color).
Proof.
  apply (legend_has_one_entry_per_display_name shared_suffix_backend
           unit_square "CORINE Land Cover Classes" empty_world [1; 2]).
  - split; reflexivity.
  - repeat constructor.
  - reflexivity.
  - intros z Hz. exact Hz.
Defined.

(** ** Display names *)

Lemma string_length_app s t :
  String.length (s +:+ t) = (String.length s + String.length t)%nat.
Proof.
  induction s as [|c s IH]; [done|].
  rewrite string_app_cons. cbn. by rewrite IH.
Qed.

Lemma suffix_after_last_has_no_separator a sep full name :
  is_suffix_after_last_occurrence (String a sep) full name ->
  ~ occurs_in (String a sep) name.
Proof.
  intros [(p & -> & Hmax)|[-> Hnone]] (p' & r' & Hocc).
  - specialize (Hmax (p +:+ String a sep +:+ p') r').
    rewrite Hocc, !string_length_app in Hmax. cbn in Hmax.
    rewrite !string_app_assoc in Hmax. specialize (Hmax eq_refl). lia.
  - by apply (Hnone p' r').
Qed.

Lemma class_display_name_has_no_separator names values k name :
  class_display_name names values k = Ok name -> ~ occurs_in "; " name.
Proof.
  unfold class_display_name. destruct (list_index values k) as [i|]; [|done].
  cbn. destruct (list_getitem names i) as [full|]; [|done]. cbn.
  destruct (display_name_suffix full) as (r & Hr & Hspec).
  cbn in Hr. rewrite Hr. intros [= <-].
  by eapply suffix_after_last_has_no_separator.
Qed.

(** X7: in every map the call returns, no layer name and no legend key
    contains the separator "; ": the prefixes of the metadata names never
    reach the map. *)
Theorem names_on_the_map_have_no_separator B roi map_title w m w' :
  visualize_corine_land_cover B (ee_Geometry roi) map_title w = (Ok m, w') ->
  (forall l, l ∈ layers m -> ~ occurs_in "; " (layer_name l)) /\
  (forall title legend_dict name,
     legend m = Some (title, legend_dict) ->
     name ∈ dict_keys legend_dict -> ~ occurs_in "; " name).
Proof.
  rewrite visualize_geometry_object. intros Hrun.
  destruct (visualize_geometry_cases B roi map_title w)
    as [(e' & H)|(filtered & ns & ps & _ & Hns & Hps & H)]; [congruence|].
  rewrite H in Hrun. apply pair_equal_spec in Hrun as [[= <-] _].
  pose proof (mapM_Ok_length _ _ _ Hns) as Hln.
  pose proof (mapM_Ok_length _ _ _ Hps) as Hlp.
  apply mapM_Ok_Forall2 in Hns.
  assert (Hclean : forall n, n ∈ ns -> ~ occurs_in "; " n).
  { intros n (j & Hj)%list_elem_of_lookup.
    destruct (Forall2_lookup_r _ _ _ _ _ Hns Hj) as (k & _ & Hdisp).
    by eapply class_display_name_has_no_separator. }
  split.
  - intros l Hl. cbn [layers] in Hl.
    apply class_layers_elem in Hl as (j & k & n & p & _ & Hn & _ & ->).
    cbn. apply Hclean. by eapply list_elem_of_lookup_2.
  - intros title legend_dict name [= <- <-] Hname. apply Hclean.
    unfold legend_of in Hname. apply legend_fold_keys_elem in Hname.
    rewrite fst_zip in Hname by lia.
    destruct Hname as [Hnil|Hin]; [by apply elem_of_nil in Hnil | done].
Qed.

Lemma names_on_the_map_have_no_separator_witness :
  exists m w',
    visualize_corine_land_cover forest_water_backend (ee_Geometry unit_square)
      "CORINE Land Cover Classes" empty_world = (Ok m, w') /\
    (forall l, l ∈ layers m -> ~ occurs_in "; " (layer_name l)) /\
    (forall title legend_dict name,
       legend m = Some (title, legend_dict) ->
       name ∈ dict_keys legend_dict -> ~ occurs_in "; " name).
Proof.
  eexists _, _. split; [vm_compute; reflexivity|].
  eapply (names_on_the_map_have_no_separator forest_water_backend unit_square
            "CORINE Land Cover Classes" empty_world).
  vm_compute. reflexivity.
Defined.

(** *** [split] and [join] *)

Lemma split_go_skip sep : forall t rest cur,
  split_go sep (String.length t) cur (t +:+ rest) = split_go sep 0 cur rest.
Proof.
  induction t as [|c t IH]; intros rest cur; [done|].
  rewrite string_app_cons. cbn [String.length split_go]. apply IH.
Qed.

Lemma prefix_app_inv sep : forall s,
  String.prefix sep s = true -> exists rest, s = sep +:+ rest.
Proof.
  induction sep as [|a sep IH]; intros s Hpre.
  - by exists s.
  - destruct s as [|c s]; [done|]. cbn in Hpre.
    destruct (ascii_dec a c) as [->|]; [|done].
    destruct (IH _ Hpre) as [rest ->]. by exists rest.
Qed.

Lemma split_go_cons_inv sep skip cur s :
  exists x l, split_go sep skip cur s = x :: l.
Proof.
  revert skip cur. induction s as [|c s IH]; intros skip cur; cbn [split_go].
  - by eexists _, _.
  - destruct skip; [|apply IH].
    destruct (String.prefix sep (String c s)); [by eexists _, _ | apply IH].
Qed.

Lemma str_join_cons sep x y l :
  str_join sep (x :: y :: l) = x +:+ sep +:+ str_join sep (y :: l).
Proof. reflexivity. Qed.

Lemma split_go_join a sep n : forall s cur,
  (String.length s <= n)%nat ->
  str_join (String a sep) (split_go (String a sep) 0 cur s) = cur +:+ s.
Proof.
  induction n as [|n IH]; intros s cur Hlen.
  - destruct s; [|cbn in Hlen; lia]. cbn. by rewrite string_app_nil_r.
  - destruct s as [|c s]; [cbn; by rewrite string_app_nil_r|].
    cbn in Hlen. cbn [split_go].
    destruct (String.prefix (String a sep) (String c s)) eqn:Hpre.
    + apply prefix_app_inv in Hpre as [rest Heq].
      rewrite string_app_cons in Heq. injection Heq as -> ->.
      cbn [String.length Nat.sub]. rewrite Nat.sub_0_r, split_go_skip.
      destruct (split_go_cons_inv (String a sep) 0 "" rest) as (x & l & Hx).
      rewrite Hx, str_join_cons, <- Hx, (IH rest "").
      * by rewrite string_app_cons.
      * rewrite string_length_app in Hlen. lia.
    + rewrite (IH s) by lia. by rewrite string_app_assoc.
Qed.

(** X8: [split] loses nothing: joining the pieces of [s.split(sep)] with
    [sep] gives [s] back, for every non-empty separator; in particular a
    metadata name is its display name preceded by its prefixes. *)
Theorem join_of_split_is_identity s sep pieces :
  str_split s sep = Ok pieces -> str_join sep pieces = s.
Proof.
  unfold str_split. destruct sep as [|a sep]; [done|]. intros [= <-].
  by rewrite (split_go_join a sep (String.length s)).
Qed.

Lemma join_of_split_is_identity_witness :
  str_join "; " ["Water bodies"; "Inland waters"; "Water courses"]
    = "Water bodies; Inland waters; Water courses".
Proof.
  apply (join_of_split_is_identity
           "Water bodies; Inland waters; Water courses" "; ").
  reflexivity.
Defined.

(** ** What the result does not depend on *)

(** X9: [map_title] only names the legend.  Two calls that differ in the
    title alone raise the same exception or return maps with the same
    layers, the same legend dict and the same center, the legend bearing
    the title of its call. *)
Theorem title_only_names_the_legend B roi title1 title2 w :
  match (visualize_corine_land_cover B roi title1 w).1,
        (visualize_corine_land_cover B roi title2 w).1 with
  | Ok m1, Ok m2 =>
      layers m1 = layers m2 /\ center m1 = center m2 /\
      snd <$> legend m1 = snd <$> legend m2 /\
      fst <$> legend m1 = Some title1 /\ fst <$> legend m2 = Some title2
  | Raise e1, Raise e2 => e1 = e2
  | _, _ => False
  end.
Proof.
  destruct roi as [g| | | | | | | |]; try reflexivity.
  rewrite !visualize_geometry_object.
  destruct (dict_comprehension int_of_str
              (dict_getitem (present_classes B g))
              (dict_keys (present_classes B g)) []) as [filtered|e] eqn:Hf.
  - destruct (mapM (class_display_name (landcover_class_names B)
                      (landcover_class_values B)) (dict_keys filtered))
      as [ns|e] eqn:Hns.
    + destruct (mapM (class_color (landcover_class_palette B)
                        (landcover_class_values B)) (dict_keys filtered))
        as [ps|e] eqn:Hps.
      * rewrite !(visualize_geometry_run B g _ w filtered ns ps) by done.
        by cbn.
      * by rewrite !(visualize_geometry_raise_palette B g _ w filtered ns e).
    + by rewrite !(visualize_geometry_raise_names B g _ w filtered e).
  - by rewrite !(visualize_geometry_raise_keys B g _ w e).
Qed.

(** X10: the pixel counts of the histogram are never read.  Two backends
    with the same metadata whose histograms have the same keys in the same
    order make the call end the same way, with the same map or the same
    exception and the same calls, whatever the counts are. *)
Theorem pixel_counts_do_not_matter B1 B2 roi map_title w :
  landcover_class_names B1 = landcover_class_names B2 ->
  landcover_class_values B1 = landcover_class_values B2 ->
  landcover_class_palette B1 = landcover_class_palette B2 ->
  dict_keys (present_classes B1 roi) = dict_keys (present_classes B2 roi) ->
  visualize_corine_land_cover B1 (ee_Geometry roi) map_title w =
  visualize_corine_land_cover B2 (ee_Geometry roi) map_title w.
Proof.
  intros Hn Hv Hp Hkeys. rewrite !visualize_geometry_object.
  pose proof (filtered_classes_cases B1 roi) as H1.
  pose proof (filtered_classes_cases B2 roi) as H2.
  rewrite <- Hkeys in H2.
  destruct (mapM int_of_str (dict_keys (present_classes B1 roi)))
    as [ids|e].
  - destruct H1 as (f1 & Hf1 & Hk1), H2 as (f2 & Hf2 & Hk2).
    rewrite Hkeys in Hf2.
    assert (Hsame : dict_keys f2 = dict_keys f1) by congruence.
    destruct (mapM (class_display_name (landcover_class_names B1)
                      (landcover_class_values B1)) (dict_keys f1))
      as [ns|e] eqn:Hns.
    + destruct (mapM (class_color (landcover_class_palette B1)
                        (landcover_class_values B1)) (dict_keys f1))
        as [ps|e] eqn:Hps.
      * rewrite (visualize_geometry_run B1 roi _ w f1 ns ps) by done.
        rewrite (visualize_geometry_run B2 roi _ w f2 ns ps);
          [by rewrite Hsame | done | by rewrite <- Hn, <- Hv, Hsame
                            | by rewrite <- Hp, <- Hv, Hsame].
      * rewrite (visualize_geometry_raise_palette B1 roi _ w f1 ns e)
          by done.
        rewrite (visualize_geometry_raise_palette B2 roi _ w f2 ns e);
          [done | done | by rewrite <- Hn, <- Hv, Hsame
                       | by rewrite <- Hp, <- Hv, Hsame].
    + rewrite (visualize_geometry_raise_names B1 roi _ w f1 e) by done.
      rewrite (visualize_geometry_raise_names B2 roi _ w f2 e);
        [done | done | by rewrite <- Hn, <- Hv, Hsame].
  - rewrite Hkeys in H2.
    by rewrite (visualize_geometry_raise_keys B1 roi _ w e),
      (visualize_geometry_raise_keys B2 roi _ w e).
Qed.

Lemma pixel_counts_do_not_matter_witness :
  visualize_corine_land_cover forest_water_backend (ee_Geometry unit_square)
    "CORINE Land Cover Classes" empty_world =
  visualize_corine_land_cover forest_water_recount_backend
    (ee_Geometry unit_square) "CORINE Land Cover Classes" empty_world.
Proof.
  apply (pixel_counts_do_not_matter forest_water_backend
           forest_water_recount_backend unit_square).
  - reflexivity.
  - reflexivity.
  - reflexivity.
  - reflexivity.
Defined.

(** ** The tabulator's console and requests *)

(** X11: with [verbose] the console receives, after what it held, the
    heading, one line per row of the returned table, in the table's order
    and with the row's name, class and area, the second heading, and the
    returned table itself. *)
Theorem verbose_report_matches_the_table
    B corine_clipped roi class_mapping scale maxPixels w :
  exists df w',
    compute_landcover_area B corine_clipped roi class_mapping scale
      maxPixels true w = (Ok df, w') /\
    stdout w' =
    stdout w
    ++ [print_str "Landcover area in hectares:"]
    ++ map line_of_row (rows df)
    ++ [print_str (String "010" "Pandas DataFrame:"); print_frame df].
Proof.
  eexists _, _. rewrite compute_landcover_area_run.
  split; [reflexivity|]. cbn [stdout rows pd_DataFrame].
  unfold verbose_report. rewrite map_map. reflexivity.
Qed.

(** X12: the tabulator makes one request to the backend however many groups
    come back: it builds the pixel-area image, puts the class raster behind
    it as second band and reduces that stack over [roi] by a sum grouped on
    band 1, at the caller's [scale] and [maxPixels]; neither the loop, nor
    the name mapping, nor [verbose] adds a call. *)
Theorem tabulator_makes_one_request
    B corine_clipped roi class_mapping scale maxPixels verbose w :
  calls (compute_landcover_area B corine_clipped roi class_mapping scale
           maxPixels verbose w).2 =
  calls w ++
  [call_pixelArea;
   call_addBands Image_pixelArea corine_clipped;
   call_reduceRegion_getInfo (Image_addBands Image_pixelArea corine_clipped)
     (sum_group 1) roi scale maxPixels "groups"].
Proof. by rewrite compute_landcover_area_run. Qed.

(** ** Shared display names *)

Lemma legend_lookup_last (n p : string) : forall (ns ps : list string) acc j,
  ns !! j = Some n -> ps !! j = Some p ->
  (forall j', (j < j')%nat -> ns !! j' <> Some n) ->
  dict_lookup n
    (foldl (fun acc np => dict_set np.1 ("#" +:+ np.2) acc) acc (zip ns ps))
  = Some ("#" +:+ p).
Proof.
  induction ns as [|n0 ns IH]; intros [|p0 ps] acc [|j] Hn Hp Hlast;
    try done; cbn in Hn, Hp.
  - injection Hn as ->. injection Hp as ->. cbn.
    rewrite legend_lookup_absent, dict_lookup_set.
    + by rewrite decide_True.
    + intros (j' & Hj')%list_elem_of_lookup.
      apply (Hlast (S j')); [lia | done].
  - cbn. apply (IH ps _ j); [done..|].
    intros j' Hlt. apply (Hlast (S j')). lia.
Qed.

(** X13: with consistent responses whose keys are plain and name distinct
    integers, when present classes share a display name, the legend entry
    under that name carries the color of the last of them in the histogram's
    order: "#" followed by the palette entry of the class after which no
    key of the histogram names a class with the same display name. *)
Theorem shared_name_keeps_last_color B roi map_title w ids j k name color :
  parallel_metadata B ->
  plain_keys B roi ->
  mapM int_of_str (dict_keys (present_classes B roi)) = Ok ids ->
  ids ⊆ landcover_class_values B ->
  NoDup ids ->
  ids !! j = Some k ->
  class_display_name (landcover_class_names B) (landcover_class_values B) k
    = Ok name ->
  class_color (landcover_class_palette B) (landcover_class_values B) k
    = Ok color ->
  (forall j' k', (j < j')%nat -> ids !! j' = Some k' ->
     class_display_name (landcover_class_names B) (landcover_class_values B)
       k' <> Ok name) ->
  exists m w' legend_dict,
    visualize_corine_land_cover B (ee_Geometry roi) map_title w = (Ok m, w') /\
    legend m = Some (map_title, legend_dict) /\
    dict_lookup name legend_dict = Some ("#" +:+ color).
Proof.
  intros Hpar _ Hids Hsub Hnd Hj Hname Hcolor Hlast.
  destruct (comprehensions_run B roi ids Hpar Hids Hsub)
    as (filtered & ns & ps & Hf & Hns & Hps & _ & _).
  pose proof (filtered_classes_cases B roi) as Hcases. rewrite Hids in Hcases.
  destruct Hcases as (filtered' & Hf' & Hkeys).
  assert (filtered' = filtered) as -> by congruence.
  rewrite foldl_keys_insert_NoDup_app in Hkeys by done. cbn in Hkeys.
  eexists _, _, _. rewrite visualize_geometry_object.
  rewrite (visualize_geometry_run B roi map_title w filtered ns ps) by done.
  split; [reflexivity|]. split; [reflexivity|]. unfold legend_of.
  apply mapM_Ok_Forall2 in Hns, Hps. rewrite Hkeys in Hns, Hps.
  destruct (Forall2_lookup_l _ _ _ _ _ Hns Hj) as (n' & Hn' & Hdisp).
  destruct (Forall2_lookup_l _ _ _ _ _ Hps Hj) as (p' & Hp' & Hcol).
  assert (n' = name) as -> by congruence.
  assert (p' = color) as -> by congruence.
  apply legend_lookup_last with (j := j); [done..|].
  intros j' Hlt Hj'.
  destruct (Forall2_lookup_r _ _ _ _ _ Hns Hj') as (k' & Hk' & Hdisp').
  by apply (Hlast j' k').
Qed.

Lemma shared_name_keeps_last_color_witness :
  exists m w' legend_dict,
    visualize_corine_land_cover shared_suffix_backend (ee_Geometry unit_square)
      "CORINE Land Cover Classes" empty_world = (Ok m, w') /\
    legend m = Some ("CORINE Land Cover Classes", legend_dict) /\
    dict_lookup "Mixed" legend_dict = Some ("#" +:+ "222222").
Proof.
  apply (shared_name_keeps_last_color shared_suffix_backend unit_square
           "CORINE Land Cover Classes" empty_world [1; 2] 1 2
           "Mixed" "222222").
  - split; reflexivity.
  - repeat constructor.
  - reflexivity.
  - intros z Hz. exact Hz.
  - apply NoDup_cons. split.
    + intros H. apply elem_of_cons in H as [H|H]; [discriminate H|].
      by apply elem_of_nil in H.
    + apply NoDup_singleton.
  - reflexivity.
  - reflexivity.
  - reflexivity.
  - intros [|[|[|j']]] k' Hlt Hk'; try lia; discriminate Hk'.
Defined.
